(** * click_mb_scanner.py: reading CLICK PLC memory over Modbus

    A shallow embedding of [src/click_mb_scanner.py].  The static tables are
    association lists in the order of the dict literals; the Modbus client is
    an abstract state machine; the functions run in a state-and-exception
    monad that threads the client, the lines printed so far and a log of the
    transport calls. *)

From Stdlib Require Import ZArith List String Ascii Bool Lia QArith Qabs.
From Stdlib Require DecimalString HexadecimalString.
From Stdlib Require Import SpecFloat.
Import ListNotations.

#[local] Open Scope string_scope.
#[local] Open Scope Z_scope.

(** ** Static tables *)

Module Catalog.

(** [type_ranges]: the two-element lists [[min, max]] as pairs. *)
Definition type_ranges : list (string * (Z * Z)) :=
  [ ("X0", (1, 36)); ("X1", (1, 16)); ("X2", (1, 16)); ("X3", (1, 16)); ("X4", (1, 16));
    ("X5", (1, 16)); ("X6", (1, 16)); ("X7", (1, 16)); ("X8", (1, 16)); ("Y0", (1, 36));
    ("Y1", (1, 16)); ("Y2", (1, 16)); ("Y3", (1, 16)); ("Y4", (1, 16)); ("Y5", (1, 16));
    ("Y6", (1, 16)); ("Y7", (1, 16)); ("Y8", (1, 16)); ("C", (1, 2000)); ("T", (1, 500));
    ("CT", (1, 250)); ("SC", (1, 1000)); ("DS", (1, 4500)); ("DD", (1, 1000)); ("DH", (1, 500));
    ("DF", (1, 500)); ("XD", (0, 8)); ("YD", (0, 8)); ("TD", (1, 500)); ("CTD", (1, 250));
    ("SD", (1, 1000)); ("TXT", (1, 1000)) ].

Definition coil_start_addrs : list (string * Z) :=
  [ ("X0", 0x0000); ("X1", 0x0020); ("X2", 0x0040); ("X3", 0x0060); ("X4", 0x0080);
    ("X5", 0x00a0); ("X6", 0x00c0); ("X7", 0x00e0); ("X8", 0x0100); ("Y0", 0x2000);
    ("Y1", 0x2020); ("Y2", 0x2040); ("Y3", 0x2060); ("Y4", 0x2080); ("Y5", 0x20a0);
    ("Y6", 0x20c0); ("Y7", 0x20e0); ("Y8", 0x2100); ("C", 0x4000); ("T", 0xB000);
    ("CT", 0xC000); ("SC", 0xF000) ].

Definition reg_start_addrs : list (string * Z) :=
  [ ("DS", 0x0000); ("DD", 0x4000); ("DH", 0x6000); ("DF", 0x7000); ("XD", 0xE000);
    ("YD", 0xE200); ("TD", 0xB000); ("CTD", 0xC000); ("SD", 0xF000); ("TXT", 0x9000) ].

Definition reg_sizes : list (string * Z) :=
  [ ("DS", 1); ("DD", 2); ("DH", 2); ("DF", 2); ("XD", 2); ("YD", 2); ("TD", 1);
    ("CTD", 2); ("SD", 1); ("TXT", 2) ].

(** [d[k]] on a dict; [None] stands for the missing key. *)
Fixpoint lookup {A : Type} (k : string) (d : list (string * A)) : option A :=
  match d with
  | [] => None
  | (k', v) :: d' => if String.eqb k k' then Some v else lookup k d'
  end.

Definition keys {A : Type} (d : list (string * A)) : list string := map fst d.

(** [x in l] on strings. *)
Definition mem (x : string) (l : list string) : bool := existsb (String.eqb x) l.

Definition coil_keys : list string := keys coil_start_addrs.
Definition reg_keys : list string := keys reg_start_addrs.

End Catalog.
Import Catalog.

(** ** Values that cross the transport boundary *)

Inductive ObjectClass := Coil | DiscreteInput | HoldingRegister | InputRegister.

Record Request := mkRequest { objectClass : ObjectClass; address : Z; count : Z }.

(** What a pymodbus read hands back: a response carrying [bits], one carrying
    [registers], an exception response (which has neither attribute), or a
    raised [ModbusException]. *)
Inductive Response :=
| BitsResponse (bits : list bool)
| RegistersResponse (registers : list Z)
| ExceptionResponse
| Raises.

Inductive Exn :=
| KeyError | IndexError | AttributeError | OverflowError | StructError
| ValueError | NameError | ModbusException.

Inductive Res (A : Type) :=
| Ok (a : A)
| Raised (e : Exn)
| OutOfFuel.
Arguments Ok {A} a.
Arguments Raised {A} e.
Arguments OutOfFuel {A}.

(** ** Pure helpers: ranges, indexing, formatting, byte and float decoding *)

Module Py.

(** [range(start, stop, step)] for a non-zero step. *)
Definition range3 (start stop step : Z) : list Z :=
  if 0 <? step then
    map (fun k => start + Z.of_nat k * step)
        (seq 0 (Z.to_nat ((stop - start + step - 1) / step)))
  else
    map (fun k => start + Z.of_nat k * step)
        (seq 0 (Z.to_nat ((start - stop - step - 1) / (- step)))).

Definition range1 (stop : Z) : list Z := range3 0 stop 1.
Definition range2 (start stop : Z) : list Z := range3 start stop 1.

Definition len {A : Type} (l : list A) : Z := Z.of_nat (List.length l).

(** [l[i]], negative indexes counted from the end. *)
Definition index {A : Type} (l : list A) (i : Z) : option A :=
  if 0 <=? i then nth_error l (Z.to_nat i)
  else if 0 <=? len l + i then nth_error l (Z.to_nat (len l + i))
  else None.

(** [str(z)] and ['%s' % z], ['%d' % z] for an int. *)
Definition str_int (z : Z) : string := DecimalString.NilZero.string_of_int (Z.to_int z).

Definition str_bool (b : bool) : string := if b then "True" else "False".

Fixpoint zeros (n : nat) : string :=
  match n with O => "" | S n' => String "0"%char (zeros n') end.

(** Zero fill of an unsigned numeral up to [width] characters. *)
Definition zfill (width : nat) (s : string) : string :=
  zeros (width - String.length s) ++ s.

(** [f'{z:02d}'] and ['%02d' % z]. *)
Definition fmt_02d (z : Z) : string :=
  if z <? 0 then "-" ++ zfill 1 (str_int (- z)) else zfill 2 (str_int z).

(** [f'{z:x}'] and ['%x' % z]. *)
Definition fmt_x (z : Z) : string := HexadecimalString.NilZero.string_of_int (Z.to_hex_int z).

(** [v.to_bytes(2, 'big')]; [None] is the OverflowError. *)
Definition to_bytes2 (v : Z) : option (list Z) :=
  if (0 <=? v) && (v <? 65536) then Some [Z.shiftr v 8; Z.land v 255] else None.

(** [int.from_bytes(a, 'big', signed=False)]. *)
Definition int_from_bytes (a : list Z) : Z :=
  fold_left (fun acc b => Z.lor (Z.shiftl acc 8) b) a 0.

(** The IEEE-754 binary32 value of a 32-bit pattern. The Python float that
    [struct.unpack] returns is the double with exactly this value. *)
Definition float_of_bits (w : Z) : spec_float :=
  let s := Z.testbit w 31 in
  let e := Z.land (Z.shiftr w 23) 255 in
  let m := Z.land w (Z.ones 23) in
  if e =? 0 then
    match m with Zpos p => S754_finite s p (-149) | _ => S754_zero s end
  else if e =? 255 then
    if m =? 0 then S754_infinity s else S754_nan
  else
    match m + 2 ^ 23 with Zpos p => S754_finite s p (e - 150) | _ => S754_nan end.

(** [struct.unpack('>f', bytearray(a))[0]]; [None] is struct.error. *)
Definition unpack_f (a : list Z) : option spec_float :=
  match a with
  | [_; _; _; _] => Some (float_of_bits (int_from_bytes a))
  | _ => None
  end.

(** The exact rational value of a finite float. *)
Definition Q_of_float (x : spec_float) : option Q :=
  match x with
  | S754_zero _ => Some 0%Q
  | S754_finite s m e =>
      let mag := if 0 <=? e then inject_Z (Zpos m * 2 ^ e)
                 else (Zpos m # Pos.pow 2 (Z.to_pos (- e)))%Q in
      Some (if s then Qopp mag else mag)
  | _ => None
  end.

(** |x| * 10^prec rounded to the nearest integer, ties to even: the digits of
    a correctly rounded ['%.<prec>f']. *)
Definition scaled_round (prec : nat) (m : positive) (e : Z) : Z :=
  let num := if 0 <=? e then Zpos m * 2 ^ e * 10 ^ Z.of_nat prec
             else Zpos m * 10 ^ Z.of_nat prec in
  let den := if 0 <=? e then 1 else 2 ^ (- e) in
  let q := num / den in
  let r := num mod den in
  if den <? 2 * r then q + 1
  else if (2 * r =? den) && Z.odd q then q + 1
  else q.

(** The text of [n / 10^prec] with [prec] decimals; no point is written when
    [prec] is 0. *)
Definition fixed_digits (prec : nat) (n : Z) : string :=
  match prec with
  | O => str_int n
  | S _ =>
      str_int (n / 10 ^ Z.of_nat prec) ++ "." ++
      zfill prec (str_int (n mod 10 ^ Z.of_nat prec))
  end.

Definition sign_str (s : bool) : string := if s then "-" else "".

(** ['%.<prec>f'] of a float. *)
Definition fmt_fixed (prec : nat) (x : spec_float) : string :=
  match x with
  | S754_nan => "nan"
  | S754_infinity s => sign_str s ++ "inf"
  | S754_zero s => sign_str s ++ fixed_digits prec 0
  | S754_finite s m e => sign_str s ++ fixed_digits prec (scaled_round prec m e)
  end.

Definition float_sign (x : spec_float) : bool :=
  match x with
  | S754_nan => false
  | S754_infinity s | S754_zero s | S754_finite s _ _ => s
  end.

(** [f'{x:.4f}']. *)
Definition fmt_4f (x : spec_float) : string := fmt_fixed 4 x.

(** ['%04f' % x]: six decimals, zero filled after the sign up to width 4. *)
Definition fmt_pct04f (x : spec_float) : string :=
  let body := match x with
              | S754_nan => "nan"
              | S754_infinity _ => "inf"
              | S754_zero _ => fixed_digits 6 0
              | S754_finite _ m e => fixed_digits 6 (scaled_round 6 m e)
              end in
  let s := sign_str (float_sign x) in
  s ++ zfill (4 - String.length s) body.

End Py.
Import Py.

(** ** The monad of the scanner: client state, printed lines, transport log *)

Section Scanner.

(** The Modbus client is a state machine the functions call into. *)
Variable T : Type.
Variable transport : T -> Request -> T * Response.
Variable connect : T -> T * bool.

Record World := mkWorld {
  client : T;
  stdout : list string;
  trace : list (Request * Response)
}.

Definition M (A : Type) : Type := World -> World * Res A.

Definition ret {A : Type} (a : A) : M A := fun w => (w, Ok a).

Definition bind {A B : Type} (m : M A) (k : A -> M B) : M B :=
  fun w =>
    match m w with
    | (w', Ok a) => k a w'
    | (w', Raised e) => (w', Raised e)
    | (w', OutOfFuel) => (w', OutOfFuel)
    end.

Definition raise {A : Type} (e : Exn) : M A := fun w => (w, Raised e).

Definition out_of_fuel {A : Type} : M A := fun w => (w, OutOfFuel).

Notation "x <- m ;; k" := (bind m (fun x => k))
  (at level 61, m at next level, right associativity).
Notation "m ;; k" := (bind m (fun _ => k))
  (at level 61, right associativity).

(** [try: m except: h] where every handler clause is tried on the exception. *)
Definition try_except {A : Type} (m : M A) (h : Exn -> M A) : M A :=
  fun w =>
    match m w with
    | (w', Raised e) => h e w'
    | other => other
    end.

Definition of_option {A : Type} (e : Exn) (o : option A) : M A :=
  match o with Some a => ret a | None => raise e end.

(** [d[k]] *)
Definition getitem {A : Type} (d : list (string * A)) (k : string) : M A :=
  of_option KeyError (lookup k d).

(** [l[i]] *)
Definition getindex {A : Type} (l : list A) (i : Z) : M A :=
  of_option IndexError (index l i).

(** [s[0]] on a string *)
Definition first_char (s : string) : M ascii :=
  of_option IndexError (String.get 0 s).

Definition print (line : string) : M unit :=
  fun w => (mkWorld (client w) (stdout w ++ [line]) (trace w), Ok tt).

(** One call into the client; the log keeps the request and what came back. *)
Definition call (rq : Request) : M Response :=
  fun w =>
    let (c', rsp) := transport (client w) rq in
    let w' := mkWorld c' (stdout w) (trace w ++ [(rq, rsp)]) in
    match rsp with
    | Raises => (w', Raised ModbusException)
    | _ => (w', Ok rsp)
    end.

Definition read_coils (addr cnt : Z) : M Response := call (mkRequest Coil addr cnt).
Definition read_discrete_inputs (addr cnt : Z) : M Response :=
  call (mkRequest DiscreteInput addr cnt).
Definition read_holding_registers (addr cnt : Z) : M Response :=
  call (mkRequest HoldingRegister addr cnt).
Definition read_input_registers (addr cnt : Z) : M Response :=
  call (mkRequest InputRegister addr cnt).

Definition client_connect : M bool :=
  fun w => let (c', ok) := connect (client w) in
           (mkWorld c' (stdout w) (trace w), Ok ok).

(** [r.bits] and [r.registers] *)
Definition bits_of (r : Response) : M (list bool) :=
  match r with BitsResponse l => ret l | _ => raise AttributeError end.

Definition registers_of (r : Response) : M (list Z) :=
  match r with RegistersResponse l => ret l | _ => raise AttributeError end.

(** [for x in l: body], with the loop-carried variable threaded through. *)
Fixpoint for_ {A S : Type} (l : list A) (body : A -> S -> M S) (s : S) : M S :=
  match l with
  | [] => ret s
  | x :: l' => s' <- body x s ;; for_ l' body s'
  end.

Definition for_each {A : Type} (l : list A) (body : A -> M unit) : M unit :=
  for_ l (fun x _ => body x) tt.

(** [[v for reg_val in bl for v in reg_val.to_bytes(2, 'big')]] *)
Fixpoint bytes_of_registers (bl : list Z) : M (list Z) :=
  match bl with
  | [] => ret []
  | reg_val :: bl' =>
      b <- of_option OverflowError (to_bytes2 reg_val) ;;
      a <- bytes_of_registers bl' ;;
      ret (b ++ a)%list
  end.

Definition truthy {A : Type} (l : list A) : bool :=
  match l with [] => false | _ => true end.

Definition when (b : bool) (m : M unit) : M unit := if b then m else ret tt.

(** *** get_coils *)

(** One turn of [for b in range(count)] over the bits of the response [r]. *)
Definition coil_step (query_type : string) (r : Response) (b : Z) : M unit :=
  c0 <- first_char query_type ;;
  if Ascii.eqb c0 "X" || Ascii.eqb c0 "Y" then
    bs <- bits_of r ;;
    x <- getindex bs b ;;
    print (query_type ++ fmt_02d b ++ " : " ++ str_bool x)
  else
    bs <- bits_of r ;;
    x <- getindex bs b ;;
    print (query_type ++ str_int b ++ " : " ++ str_bool x).

Definition get_coils (query_type : string) : M unit :=
  start_addr <- getitem coil_start_addrs query_type ;;
  rng <- getitem type_ranges query_type ;;
  let count := snd rng in
  if (query_type =? "C")%string then
    r1 <- read_coils start_addr 1000 ;;
    b1 <- bits_of r1 ;;
    r2 <- read_coils 1000 1000 ;;
    b2 <- bits_of r2 ;;
    let rfull := (b1 ++ b2)%list in
    for_each (range1 (len rfull)) (fun e =>
      x <- getindex rfull e ;;
      print (query_type ++ str_int (e + 1) ++ " : " ++ str_bool x))
  else
    c0 <- first_char query_type ;;
    r <- (if Ascii.eqb c0 "X" then read_discrete_inputs start_addr count
          else read_coils start_addr count) ;;
    for_each (range1 count) (coil_step query_type r).

(** *** get_registers *)

(** The block loop [while curr_block <= count]; the loop-carried variables are
    [curr_block] and [name_cnt].  The recursion is on [fuel]; the callers
    give [count + 1 - curr_block], which the loop cannot use up since
    [curr_block] grows by [block_size] on every turn. *)
Fixpoint block_loop (fuel : nat) (query_type : string)
    (start_addr count block_size curr_block name_cnt : Z) : M unit :=
  if curr_block <=? count then
    match fuel with
    | O => out_of_fuel
    | S fuel' =>
        r <- read_holding_registers (start_addr + curr_block) block_size ;;
        regs <- registers_of r ;;
        name_cnt' <-
          (if truthy regs then
             for_ regs (fun br name_cnt =>
               (if mem query_type ["DS"; "TD"; "SD"] then
                  print (query_type ++ str_int name_cnt ++ " : " ++ str_int br)
                else
                  print (query_type ++ str_int name_cnt ++ " : 0x" ++ fmt_x br)) ;;
               ret (name_cnt + 1)) name_cnt
           else ret name_cnt) ;;
        block_loop fuel' query_type start_addr count block_size
                   (curr_block + block_size) name_cnt'
    end
  else ret tt.

(** One turn of [for b in range(...)] of the per-value branch. *)
Definition value_step (query_type : string) (start_addr : Z) (b name_cnt : Z) : M Z :=
  size <- getitem reg_sizes query_type ;;
  r <- (if (query_type =? "XD")%string then read_input_registers (start_addr + b) size
        else read_holding_registers (start_addr + b) size) ;;
  regs <- registers_of r ;;
  when (truthy regs)
    (when (mem query_type ["DD"; "CTD"; "XD"; "YD"])
       (bl <- registers_of r ;;
        a <- bytes_of_registers bl ;;
        let rn := int_from_bytes a in
        print (query_type ++ str_int name_cnt ++ " : " ++ str_int rn)) ;;
     when (query_type =? "DF")%string
       (bl <- registers_of r ;;
        a <- bytes_of_registers bl ;;
        fn <- of_option StructError (unpack_f a) ;;
        print (query_type ++ str_int name_cnt ++ " : " ++ fmt_4f fn))) ;;
  ret (name_cnt + 1).

Definition get_registers (query_type : string) : M unit :=
  start_addr <- getitem reg_start_addrs query_type ;;
  rng <- getitem type_ranges query_type ;;
  let count := snd rng in
  rng0 <- getitem type_ranges query_type ;;
  let name_cnt := fst rng0 in
  if mem query_type ["DS"; "TD"; "SD"; "DH"; "TXT"] then
    let block_size := 100 in
    let curr_block := 0 in
    block_loop (Z.to_nat (count + 1 - curr_block)) query_type
               start_addr count block_size curr_block name_cnt
  else
    lo <- getitem type_ranges query_type ;;
    size <- getitem reg_sizes query_type ;;
    (if size =? 0 then raise ValueError else ret tt) ;;
    for_ (range3 (fst lo) (count + 1) size) (value_step query_type start_addr) name_cnt ;;
    ret tt.

(** *** main *)

(** [args_query_type] is [args.query_type] ([None] when the positional is
    left out); [global_query_type] is the module global [query_type] that the
    two calls name, [None] while it is unbound.  [ConnectionException] is not
    imported, so raising it, or trying the first [except] clause on any
    exception, raises NameError. *)
Definition main (args_query_type global_query_type : option string) : M unit :=
  try_except
    (ok <- client_connect ;;
     (if negb ok then raise NameError else ret tt) ;;
     when (match args_query_type with Some q => mem q coil_keys | None => false end)
       (query_type <- of_option NameError global_query_type ;;
        get_coils query_type) ;;
     when (match args_query_type with Some q => mem q reg_keys | None => false end)
       (query_type <- of_option NameError global_query_type ;;
        get_registers query_type))
    (fun _ => raise NameError).

(** *** The module-level script (the [with] block at the end of the file) *)

(** [a = []; for reg_val in bl: for v in reg_val.to_bytes(2,'big'): a.append(v)] *)
Definition script_bytes_of_registers (bl : list Z) : M (list Z) :=
  for_ bl (fun reg_val a =>
    b <- of_option OverflowError (to_bytes2 reg_val) ;;
    for_ b (fun v a => ret (a ++ [v])%list) a) [].

Fixpoint script_block_loop (fuel : nat) (query_type : string)
    (start_addr count block_size curr_block name_cnt : Z) : M unit :=
  if curr_block <=? count then
    match fuel with
    | O => out_of_fuel
    | S fuel' =>
        r <- read_holding_registers (start_addr + curr_block) 100 ;;
        regs <- registers_of r ;;
        name_cnt' <-
          (if truthy regs then
             for_ regs (fun br name_cnt =>
               (if mem query_type ["DS"; "TD"; "SD"] then
                  print (query_type ++ str_int name_cnt ++ " : " ++ str_int br)
                else
                  print (query_type ++ str_int name_cnt ++ " : 0x" ++ fmt_x br)) ;;
               ret (name_cnt + 1)) name_cnt
           else ret name_cnt) ;;
        script_block_loop fuel' query_type start_addr count block_size
                          (curr_block + block_size) name_cnt'
    end
  else ret tt.

Definition script_value_step (query_type : string) (start_addr : Z) (b name_cnt : Z) : M Z :=
  size <- getitem reg_sizes query_type ;;
  r <- (if (query_type =? "XD")%string then read_input_registers (start_addr + b) size
        else read_holding_registers (start_addr + b) size) ;;
  regs <- registers_of r ;;
  when (truthy regs)
    (when (mem query_type ["DD"; "CTD"; "XD"; "YD"])
       (bl <- registers_of r ;;
        a <- script_bytes_of_registers bl ;;
        let rn := int_from_bytes a in
        print (query_type ++ str_int name_cnt ++ " : " ++ str_int rn)) ;;
     when (query_type =? "DF")%string
       (bl <- registers_of r ;;
        a <- script_bytes_of_registers bl ;;
        fn <- of_option StructError (unpack_f a) ;;
        print (query_type ++ str_int name_cnt ++ " : " ++ fmt_pct04f fn))) ;;
  ret (name_cnt + 1).

(** One turn of [for b in range(1,count)] over the bits of the response [r]. *)
Definition script_coil_step (query_type : string) (r : Response) (b : Z) : M unit :=
  c0 <- first_char query_type ;;
  if Ascii.eqb c0 "X" || Ascii.eqb c0 "Y" then
    bs <- bits_of r ;;
    x <- getindex bs b ;;
    print (query_type ++ fmt_02d b ++ " : " ++ str_bool x)
  else
    bs <- bits_of r ;;
    x <- getindex bs b ;;
    print (query_type ++ str_int b ++ " : " ++ str_bool x).

Definition script_coils (query_type : string) : M unit :=
  start_addr <- getitem coil_start_addrs query_type ;;
  rng <- getitem type_ranges query_type ;;
  let count := snd rng in
  if (query_type =? "C")%string then
    r1 <- read_coils start_addr 1000 ;;
    b1 <- bits_of r1 ;;
    r2 <- read_coils 1000 1000 ;;
    b2 <- bits_of r2 ;;
    let rfull := (b1 ++ b2)%list in
    for_each (range1 (len rfull)) (fun e =>
      x <- getindex rfull e ;;
      print (query_type ++ str_int (e + 1) ++ " : " ++ str_bool x))
  else
    c0 <- first_char query_type ;;
    r <- (if Ascii.eqb c0 "X" then read_discrete_inputs start_addr count
          else read_coils start_addr count) ;;
    for_each (range2 1 count) (script_coil_step query_type r).

Definition script_registers (query_type : string) : M unit :=
  start_addr <- getitem reg_start_addrs query_type ;;
  rng <- getitem type_ranges query_type ;;
  let count := snd rng in
  rng0 <- getitem type_ranges query_type ;;
  let name_cnt := fst rng0 in
  if mem query_type ["DS"; "TD"; "SD"; "DH"; "TXT"] then
    let block_size := 100 in
    let curr_block := 0 in
    script_block_loop (Z.to_nat (count + 1 - curr_block)) query_type
                      start_addr count block_size curr_block name_cnt
  else
    lo <- getitem type_ranges query_type ;;
    size <- getitem reg_sizes query_type ;;
    (if size =? 0 then raise ValueError else ret tt) ;;
    for_ (range3 (fst lo) (count + 1) size) (script_value_step query_type start_addr) name_cnt ;;
    ret tt.

(** The body of the [with] block: the two [if]s in sequence. *)
Definition script (query_type : string) : M unit :=
  when (mem query_type coil_keys) (script_coils query_type) ;;
  when (mem query_type reg_keys) (script_registers query_type).

End Scanner.

Arguments mkWorld {T} _ _ _.
Arguments client {T} _.
Arguments stdout {T} _.
Arguments trace {T} _.

(** ** Concrete clients *)

(** A PLC that answers every read in full from its memory image. *)
Definition plc_transport (coils : Z -> bool) (regs : Z -> Z)
    (c : unit) (rq : Request) : unit * Response :=
  let addrs := map (fun k => address rq + Z.of_nat k) (seq 0 (Z.to_nat (count rq))) in
  match objectClass rq with
  | Coil | DiscreteInput => (c, BitsResponse (map coils addrs))
  | HoldingRegister | InputRegister => (c, RegistersResponse (map regs addrs))
  end.

(** A client that replays a fixed list of responses and raises once it is
    exhausted. *)
Definition scripted_transport (c : list Response) (rq : Request)
    : list Response * Response :=
  match c with
  | [] => ([], Raises)
  | r :: c' => (c', r)
  end.

Definition always_connected {T : Type} (c : T) : T * bool := (c, true).

Definition start {T : Type} (c : T) : World T := mkWorld c [] [].

(** The requests a run issued, in order. *)
Definition requests {T : Type} (w : World T) : list Request := map fst (trace w).

(** Reply lists for the scripted client, used where a statement is shown
    on a concrete run. *)
Definition no_replies : list Response := [].

Definition TD_replies : list Response :=
  [ RegistersResponse []; RegistersResponse [7]; RegistersResponse [];
    RegistersResponse []; RegistersResponse []; RegistersResponse [] ].

(** An empty first block, then four answers of 125 registers and one of a
    single register. *)
Definition TD_long_replies : list Response :=
  (RegistersResponse [] :: repeat (RegistersResponse (repeat 7 125)) 4
   ++ [RegistersResponse [9]])%list.

Definition DD_replies : list Response := repeat (RegistersResponse [0; 7]) 500.

Definition DS_replies : list Response := repeat (RegistersResponse [7]) 46.

Definition C_replies : list Response :=
  [ BitsResponse [true; false]; BitsResponse [true] ].

Definition X1_replies : list Response := [ BitsResponse (repeat true 16) ].

(** ** Vocabulary of the statements *)

(** The line the block loop prints for register value [br] under counter
    [name_cnt]. *)
Definition block_line (query_type : string) (name_cnt br : Z) : string :=
  if mem query_type ["DS"; "TD"; "SD"] then
    query_type ++ str_int name_cnt ++ " : " ++ str_int br
  else
    query_type ++ str_int name_cnt ++ " : 0x" ++ fmt_x br.

(** The lines of one pass of [for br in r.registers] started at [name_cnt]. *)
Fixpoint block_lines (query_type : string) (name_cnt : Z) (regs : list Z) : list string :=
  match regs with
  | [] => []
  | br :: regs' => block_line query_type name_cnt br :: block_lines query_type (name_cnt + 1) regs'
  end.

(** The lines of [for e in range(len(rfull))] of the C branch, numbered from
    [first]. *)
Fixpoint relay_lines (query_type : string) (first : Z) (bits : list bool) : list string :=
  match bits with
  | [] => []
  | x :: bits' =>
      (query_type ++ str_int first ++ " : " ++ str_bool x) :: relay_lines query_type (first + 1) bits'
  end.

(** The registers a logged response carried. *)
Definition returned (rsp : Response) : list Z :=
  match rsp with RegistersResponse l => l | _ => [] end.

(** The bits a logged response carried. *)
Definition returned_bits (rsp : Response) : list bool :=
  match rsp with BitsResponse l => l | _ => [] end.

(** How many registers the first [j] logged calls returned in total. *)
Definition returned_before (tr : list (Request * Response)) (j : nat) : Z :=
  len (List.concat (map (fun x => returned (snd x)) (firstn j tr))).

(** Whether a request reads Modbus address [a], and how many requests of a
    plan read it. *)
Definition covers (rq : Request) (a : Z) : bool :=
  (address rq <=? a) && (a <? address rq + count rq).

Definition coverage (plan : list Request) (a : Z) : nat :=
  List.length (filter (fun rq => covers rq a) plan).

(** The resolver as the specification words it (section 4.2):
    [address = baseAddress + (instanceIndex - indexOrigin) * wordsPerValue]. *)
Definition spec_resolve (baseAddress indexOrigin wordsPerValue instanceIndex : Z) : Z :=
  baseAddress + (instanceIndex - indexOrigin) * wordsPerValue.

(** Its inverse for one-word values: the instance stored at an address. *)
Definition spec_instance_at (baseAddress indexOrigin a : Z) : Z :=
  indexOrigin + (a - baseAddress).

(** The bytes of a list of registers, as both the comprehension of the
    functions and the append loop of the script build them; [None] is the
    OverflowError of a value that does not fit two bytes. *)
Fixpoint registers_bytes (bl : list Z) : option (list Z) :=
  match bl with
  | [] => Some []
  | reg_val :: bl' =>
      match to_bytes2 reg_val with
      | None => None
      | Some b =>
          match registers_bytes bl' with
          | None => None
          | Some a => Some (b ++ a)%list
          end
      end
  end.

(** What one turn of the per-value loop prints for the registers it got, and
    how it ends, with [fmt] as the float format. *)
Definition decoded (fmt : spec_float -> string) (query_type : string) (name_cnt : Z)
    (regs : list Z) : list string * Res unit :=
  if truthy regs then
    let first :=
      if mem query_type ["DD"; "CTD"; "XD"; "YD"] then
        match registers_bytes regs with
        | None => ([], Raised OverflowError)
        | Some a =>
            ([query_type ++ str_int name_cnt ++ " : " ++ str_int (int_from_bytes a)], Ok tt)
        end
      else ([], Ok tt) in
    match snd first with
    | Ok _ =>
        if (query_type =? "DF")%string then
          match registers_bytes regs with
          | None => (fst first, Raised OverflowError)
          | Some a =>
              match unpack_f a with
              | None => (fst first, Raised StructError)
              | Some fn =>
                  ((fst first ++ [(query_type ++ str_int name_cnt ++ " : " ++ fmt fn)%string])%list, Ok tt)
              end
          end
        else (fst first, Ok tt)
    | _ => first
    end
  else ([], Ok tt).

(** The object class the per-value loop reads for a type. *)
Definition value_class (query_type : string) : ObjectClass :=
  if (query_type =? "XD")%string then InputRegister else HoldingRegister.

(** How a turn of the per-value loop ends, given how its decoding ended: the
    counter moves on, an exception passes through. *)
Definition next (name_cnt : Z) (r : Res unit) : Res Z :=
  match r with
  | Ok _ => Ok (name_cnt + 1)
  | Raised e => Raised e
  | OutOfFuel => OutOfFuel
  end.

(** The lines of the successive turns of the per-value loop, one list per
    read, for the registers [steps] the reads returned. *)
Fixpoint value_outputs (fmt : spec_float -> string) (query_type : string) (name_cnt : Z)
    (steps : list (list Z)) : list (list string) :=
  match steps with
  | [] => []
  | regs :: steps' =>
      fst (decoded fmt query_type name_cnt regs)
      :: value_outputs fmt query_type (name_cnt + 1) steps'
  end.

(** The label the loop over the bits of a non-C coil type prints for bit
    index [b], by the first character [c0] of the symbol. *)
Definition coil_label (c0 : ascii) (b : Z) : string :=
  if Ascii.eqb c0 "X" || Ascii.eqb c0 "Y" then fmt_02d b else str_int b.

(** The lines that loop prints over the indexes [l] of the bits [bs], and how
    it ends: an index past the bits raises IndexError. *)
Fixpoint coil_lines (query_type : string) (c0 : ascii) (bs : list bool) (l : list Z)
    : list string * Res unit :=
  match l with
  | [] => ([], Ok tt)
  | b :: l' =>
      match index bs b with
      | None => ([], Raised IndexError)
      | Some x =>
          ((query_type ++ coil_label c0 b ++ " : " ++ str_bool x)
             :: fst (coil_lines query_type c0 bs l'),
           snd (coil_lines query_type c0 bs l'))
      end
  end.

(** A line of a DF value under counter [n], in a given float format. *)
Definition float_line (fmt : spec_float -> string) (nx : Z * spec_float) : string :=
  "DF" ++ str_int (fst nx) ++ " : " ++ fmt (snd nx).

(** ** The rest of the file: the name table and the command line of the script *)

Module Names.

(** The items of the [type_names] literal in the order written; the keys
    [X1] and [X2] are written twice. *)
Definition type_names_items : list (string * string) :=
  [ ("X0", "M0 Input Point"); ("X1", "M1 Input Point"); ("X2", "M2 Input Point");
    ("Y0", "M0 Output Point"); ("X1", "M1 Output Point"); ("X2", "M2 Output Point");
    ("C", "Control Relay"); ("T", "Timer"); ("CT", "Counter"); ("SC", "System Control Relay");
    ("DS", "Data Register int"); ("TD", "Timer Register"); ("SD", "System Data Register");
    ("DD", "Data Register int2"); ("CTD", "Counter Register"); ("DF", "Data Register float");
    ("DH", "Data Register hex"); ("XD", "Input Register"); ("YD", "Output Register");
    ("TXT", "Text Data") ].

(** [d[k] = v]: a key already present keeps its place and takes the new
    value, a new key goes to the end. *)
Fixpoint dict_set {A : Type} (k : string) (v : A) (d : list (string * A))
    : list (string * A) :=
  match d with
  | [] => [(k, v)]
  | (k', v') :: d' =>
      if String.eqb k k' then (k, v) :: d' else (k', v') :: dict_set k v d'
  end.

(** The dict a literal builds: its items set one after the other. *)
Definition dict_of {A : Type} (items : list (string * A)) : list (string * A) :=
  fold_left (fun d kv => dict_set (fst kv) (snd kv) d) items [].

Definition type_names : list (string * string) := dict_of type_names_items.

End Names.
Import Names.

(** How the lines before the [with] block leave: through [sys.exit()], or on
    to the block with [query_type] bound. *)
Inductive Flow :=
| Exited
| Running (query_type : string).

Section Script.

Variable T : Type.
Variable transport : T -> Request -> T * Response.

(** The lines from [# Command Line Variables] to the second [sys.exit()],
    on [sys.argv].  The global [query_type] is bound only when there are
    three arguments; naming it while unbound raises NameError. *)
Definition script_prelude (argv : list string) : M T Flow :=
  if (len argv <? 2) || (3 <? len argv) then
    bind T (print T "Check Readme for Usage") (fun _ => ret T Exited)
  else
    bind T (getindex T argv 1) (fun plc_ip =>
    bind T (if 2 <? len argv
            then bind T (getindex T argv 2) (fun a => ret T (Some a))
            else ret T None) (fun query_type =>
    bind T (if (plc_ip =? "list")%string then ret T true
            else bind T (of_option T NameError query_type)
                        (fun q => ret T (q =? "list")%string)) (fun is_list =>
    if is_list then
      bind T (for_each T (keys type_names) (fun e =>
                bind T (getitem T type_names e) (fun name =>
                  print T (e ++ ": " ++ name))))
             (fun _ => ret T Exited)
    else
      bind T (of_option T NameError query_type) (fun q => ret T (Running q))))).

(** The module-level code after [main()]: the lines above, then the [with]
    block. *)
Definition module_script (argv : list string) : M T unit :=
  bind T (script_prelude argv) (fun flow =>
    match flow with
    | Exited => ret T tt
    | Running query_type => script T transport query_type
    end).

End Script.

(** The lines of the loop over the bits of a non-C coil type for the bits
    [bs], the first under index [first]. *)
Fixpoint bit_lines (query_type : string) (c0 : ascii) (first : Z) (bs : list bool)
    : list string :=
  match bs with
  | [] => []
  | x :: bs' =>
      (query_type ++ coil_label c0 first ++ " : " ++ str_bool x)
        :: bit_lines query_type c0 (first + 1) bs'
  end.

(** The object class [get_coils] reads for a symbol that starts with [c0]. *)
Definition coil_class (c0 : ascii) : ObjectClass :=
  if Ascii.eqb c0 "X" then DiscreteInput else Coil.

(** The reads [get_registers] makes for a symbol when every one of them is
    answered with registers, by the tables; empty for a symbol the tables
    do not hold. *)
Definition register_plan (query_type : string) : list Request :=
  match lookup query_type reg_start_addrs, lookup query_type type_ranges,
        lookup query_type reg_sizes with
  | Some start_addr, Some (lo, hi), Some size =>
      if mem query_type ["DS"; "TD"; "SD"; "DH"; "TXT"] then
        map (fun a => mkRequest HoldingRegister (start_addr + a) 100) (range3 0 (hi + 1) 100)
      else
        map (fun b => mkRequest (value_class query_type) (start_addr + b) size)
            (range3 lo (hi + 1) size)
  | _, _, _ => []
  end.

(** The number a list of registers makes, most significant first. *)
Definition registers_value (regs : list Z) : Z :=
  fold_left (fun acc r => acc * 65536 + r) regs 0.

(** A register as the client hands it over: sixteen bits. *)
Definition is_register (r : Z) : Prop := 0 <= r < 65536.

(** An exception renamed as [main] renames it. *)
Definition as_name_error {A : Type} (r : Res A) : Res A :=
  match r with
  | Raised _ => Raised NameError
  | other => other
  end.

(** The lines of the [list] command. *)
Definition listing : list string :=
  map (fun kv => fst kv ++ ": " ++ snd kv) type_names.

(** The reads [get_coils] makes for a symbol when each is answered with
    bits, by the tables; empty for a symbol the tables do not hold. *)
Definition coil_plan (query_type : string) : list Request :=
  match lookup query_type coil_start_addrs, lookup query_type type_ranges,
        String.get 0 query_type with
  | Some start_addr, Some (lo, cnt), Some c0 =>
      if (query_type =? "C")%string then
        [mkRequest Coil start_addr 1000; mkRequest Coil 1000 1000]
      else [mkRequest (coil_class c0) start_addr cnt]
  | _, _, _ => []
  end.

(** A PLC image for the concrete runs: coil [a] is set when [a] is odd,
    register [a] holds [a mod 65536]. *)
Definition sample_plc : unit -> Request -> unit * Response :=
  plc_transport Z.odd (fun a => a mod 65536).

(** ** Facts about the helpers *)

Lemma mem_true_iff (x : string) (l : list string) : mem x l = true <-> In x l.
Proof.
  unfold mem. rewrite existsb_exists. split.
  - intros [y [Hy He]]. apply String.eqb_eq in He. now subst.
  - intros H. exists x. split; [assumption | apply String.eqb_refl].
Qed.

Lemma range3_nil (start stop step : Z) :
  0 < step -> stop <= start -> range3 start stop step = [].
Proof.
  intros Hs Hle. unfold range3.
  destruct (Z.ltb_spec 0 step) as [_|]; [|lia].
  assert (H : (stop - start + step - 1) / step <= 0).
  { apply Z.lt_succ_r. apply Z.div_lt_upper_bound; lia. }
  replace (Z.to_nat ((stop - start + step - 1) / step)) with 0%nat by lia.
  reflexivity.
Qed.

Lemma range3_cons (start stop step : Z) :
  0 < step -> start < stop ->
  range3 start stop step = start :: range3 (start + step) stop step.
Proof.
  intros Hs Hlt. unfold range3.
  destruct (Z.ltb_spec 0 step) as [_|]; [|lia].
  replace (stop - start + step - 1) with ((stop - (start + step) + step - 1) + 1 * step) by lia.
  rewrite Z.div_add by lia.
  assert (H : 0 <= (stop - (start + step) + step - 1) / step).
  { apply Z.div_pos; lia. }
  rewrite Z2Nat.inj_add by lia.
  change (Z.to_nat 1) with 1%nat. rewrite Nat.add_1_r.
  cbn [seq map]. f_equal; [lia|].
  rewrite <- seq_shift, map_map.
  apply map_ext. intros k. lia.
Qed.

Lemma len_app {A : Type} (l1 l2 : list A) : len (l1 ++ l2) = len l1 + len l2.
Proof. unfold len. rewrite length_app. lia. Qed.

Lemma len_nonneg {A : Type} (l : list A) : 0 <= len l.
Proof. unfold len. lia. Qed.

Lemma block_lines_app (q : string) (n : Z) (l1 l2 : list Z) :
  block_lines q n (l1 ++ l2) = (block_lines q n l1 ++ block_lines q (n + len l1) l2)%list.
Proof.
  revert n. induction l1 as [|x l1 IH]; intros n; cbn [block_lines app].
  - unfold len. cbn. now rewrite Z.add_0_r.
  - rewrite IH. do 3 f_equal. unfold len. cbn [List.length]. lia.
Qed.

Lemma block_lines_length (q : string) (n : Z) (l : list Z) :
  List.length (block_lines q n l) = List.length l.
Proof. revert n. induction l; intros; cbn; auto. Qed.

Lemma block_lines_nth (q : string) (n : Z) (l : list Z) (k : nat) (br : Z) :
  nth_error l k = Some br ->
  nth_error (block_lines q n l) k = Some (block_line q (n + Z.of_nat k) br).
Proof.
  revert n k. induction l as [|x l IH]; intros n k H.
  - destruct k; discriminate.
  - destruct k as [|k]; cbn in *.
    + inversion H. now rewrite Z.add_0_r.
    + rewrite (IH (n + 1) k H). do 2 f_equal. lia.
Qed.

Lemma index_of_nat {A : Type} (l : list A) (k : nat) : index l (Z.of_nat k) = nth_error l k.
Proof.
  unfold index. destruct (Z.leb_spec 0 (Z.of_nat k)); [|lia]. now rewrite Nat2Z.id.
Qed.

Lemma range1_of_nat (n : nat) : range1 (Z.of_nat n) = map Z.of_nat (seq 0 n).
Proof.
  unfold range1, range3. cbn [Z.ltb Z.compare].
  replace (Z.to_nat ((Z.of_nat n - 0 + 1 - 1) / 1)) with n
    by (rewrite Z.div_1_r; lia).
  apply map_ext. intros k. lia.
Qed.

Lemma lor_shiftl_add (a b n : Z) :
  0 <= n -> 0 <= b < 2 ^ n -> Z.lor (Z.shiftl a n) b = a * 2 ^ n + b.
Proof.
  intros Hn Hb.
  assert (Hland : Z.land (Z.shiftl a n) b = 0).
  { apply Z.bits_inj'. intros m Hm. rewrite Z.land_spec, Z.bits_0.
    destruct (Z.lt_ge_cases m n) as [Hlt|Hge].
    - rewrite Z.shiftl_spec_low by assumption. reflexivity.
    - rewrite <- (Z.mod_small b (2 ^ n)) by assumption.
      rewrite Z.mod_pow2_bits_high by lia. apply andb_false_r. }
  rewrite <- Z.lxor_lor by assumption.
  rewrite <- Z.add_nocarry_lxor by assumption.
  now rewrite Z.shiftl_mul_pow2.
Qed.

Lemma to_bytes2_Some (v : Z) :
  0 <= v < 65536 -> to_bytes2 v = Some [v / 256; v mod 256].
Proof.
  intros Hv. unfold to_bytes2.
  destruct (Z.leb_spec 0 v); [|lia]. destruct (Z.ltb_spec v 65536); [|lia].
  cbn [andb]. rewrite Z.shiftr_div_pow2 by lia.
  change 255 with (Z.ones 8). rewrite Z.land_ones by lia. reflexivity.
Qed.

(** Two registers, high word first, make the 32-bit value. *)
Lemma registers_bytes_pair (hi lo : Z) :
  0 <= hi < 65536 -> 0 <= lo < 65536 ->
  exists a, registers_bytes [hi; lo] = Some a /\ int_from_bytes a = hi * 65536 + lo.
Proof.
  intros Hhi Hlo. cbn [registers_bytes].
  rewrite (to_bytes2_Some hi Hhi), (to_bytes2_Some lo Hlo).
  eexists. split; [reflexivity|].
  cbn [app]. unfold int_from_bytes. cbn [fold_left].
  pose proof (Z.mod_pos_bound hi 256 ltac:(lia)).
  pose proof (Z.mod_pos_bound lo 256 ltac:(lia)).
  assert (0 <= hi / 256 < 256) by (split; [apply Z.div_pos | apply Z.div_lt_upper_bound]; lia).
  assert (0 <= lo / 256 < 256) by (split; [apply Z.div_pos | apply Z.div_lt_upper_bound]; lia).
  rewrite !lor_shiftl_add by lia.
  pose proof (Z.div_mod hi 256 ltac:(lia)). pose proof (Z.div_mod lo 256 ltac:(lia)).
  lia.
Qed.

(** The loop over the bits of a non-C coil type over consecutive indexes. *)
Lemma coil_lines_bits (q : string) (c0 : ascii) (pre bs : list bool) (n : nat) :
  coil_lines q c0 (pre ++ bs)
             (map (fun i => Z.of_nat (List.length pre + i)) (seq 0 n))
  = (bit_lines q c0 (len pre) (firstn n bs),
     if (n <=? List.length bs)%nat then Ok tt else Raised IndexError).
Proof.
  revert pre bs. induction n as [|n IH]; intros pre bs.
  - reflexivity.
  - cbn [seq map coil_lines]. rewrite index_of_nat, nth_error_app2 by lia.
    replace (List.length pre + 0 - List.length pre)%nat with 0%nat by lia.
    destruct bs as [|x bs]; cbn [nth_error firstn bit_lines].
    + reflexivity.
    + rewrite <- seq_shift, map_map.
      replace (pre ++ x :: bs)%list with ((pre ++ [x]) ++ bs)%list
        by (now rewrite <- app_assoc).
      erewrite map_ext; [rewrite (IH (pre ++ [x])%list bs)|].
      * cbn [fst snd List.length Nat.leb].
        replace (Z.of_nat (List.length pre + 0)) with (len pre) by (unfold len; lia).
        replace (len (pre ++ [x])) with (len pre + 1)
          by (rewrite len_app; unfold len; cbn [List.length]; lia).
        reflexivity.
      * intros i. cbn beta. rewrite length_app. cbn [List.length]. f_equal. lia.
Qed.

Lemma range2_from_1 (n : Z) :
  1 <= n -> range2 1 n = map (fun i => Z.of_nat (1 + i)) (seq 0 (Z.to_nat (n - 1))).
Proof.
  intros Hn. unfold range2, range3. cbn [Z.ltb Z.compare].
  replace (Z.to_nat ((n - 1 + 1 - 1) / 1)) with (Z.to_nat (n - 1))
    by (rewrite Z.div_1_r; lia).
  apply map_ext. intros k. lia.
Qed.

(** ** Lists: positions in logs and in concatenations *)

Lemma nth_error_combine_eq {A B : Type} (l1 : list A) (l2 : list B) (j : nat) :
  nth_error (combine l1 l2) j =
  match nth_error l1 j, nth_error l2 j with
  | Some a, Some b => Some (a, b)
  | _, _ => None
  end.
Proof.
  revert l2 j. induction l1 as [|x l1 IH]; intros [|y l2] [|j]; cbn; try reflexivity.
  - now destruct (nth_error l1 j).
  - apply IH.
Qed.

Lemma map_fst_combine_eq {A B : Type} (l1 : list A) (l2 : list B) :
  List.length l2 = List.length l1 -> map fst (combine l1 l2) = l1.
Proof.
  revert l2. induction l1 as [|x l1 IH]; intros [|y l2] H; cbn in *; try discriminate; auto.
  f_equal. apply IH. lia.
Qed.

Lemma map_snd_combine_eq {A B : Type} (l1 : list A) (l2 : list B) :
  List.length l2 = List.length l1 -> map snd (combine l1 l2) = l2.
Proof.
  revert l2. induction l1 as [|x l1 IH]; intros [|y l2] H; cbn in *; try discriminate; auto.
  f_equal. apply IH. lia.
Qed.

Lemma range3_nth (start stop step : Z) (j : nat) (x : Z) :
  0 < step -> nth_error (range3 start stop step) j = Some x -> x = start + Z.of_nat j * step.
Proof.
  intros Hs. unfold range3. destruct (Z.ltb_spec 0 step) as [_|]; [|lia].
  rewrite nth_error_map, nth_error_seq.
  destruct (Nat.ltb j _); cbn; intros H; inversion H. reflexivity.
Qed.

Lemma concat_nth {A : Type} (ls : list (list A)) (j p : nat) (l : list A) (x : A) :
  nth_error ls j = Some l -> nth_error l p = Some x ->
  nth_error (List.concat ls) (List.length (List.concat (firstn j ls)) + p) = Some x.
Proof.
  intros Hj Hp.
  rewrite <- (firstn_skipn_middle j ls Hj) at 1.
  rewrite concat_app. cbn [List.concat].
  rewrite nth_error_app2 by lia.
  replace (List.length (List.concat (firstn j ls)) + p - List.length (List.concat (firstn j ls)))%nat
    with p by lia.
  rewrite nth_error_app1; [assumption|].
  apply nth_error_Some. rewrite Hp. discriminate.
Qed.

Lemma concat_firstn_le {A : Type} (bs : Z) (ls : list (list A)) (j : nat) :
  0 <= bs -> (forall l, In l ls -> len l <= bs) ->
  len (List.concat (firstn j ls)) <= bs * Z.of_nat j.
Proof.
  intros Hbs. revert j. induction ls as [|l ls IH]; intros j H.
  - rewrite firstn_nil. unfold len. cbn. lia.
  - destruct j as [|j]; cbn [firstn List.concat].
    + unfold len. cbn. lia.
    + rewrite len_app.
      specialize (IH j (fun l' Hl => H l' (or_intror Hl))).
      specialize (H l (or_introl eq_refl)). lia.
Qed.

(** One empty answer among the first [j] keeps their total a whole block
    short. *)
Lemma concat_firstn_gap {A : Type} (bs : Z) (ls : list (list A)) (i j : nat) :
  0 <= bs -> (forall l, In l ls -> len l <= bs) ->
  nth_error ls i = Some [] -> (i < j)%nat ->
  len (List.concat (firstn j ls)) <= bs * (Z.of_nat j - 1).
Proof.
  intros Hbs. revert i j. induction ls as [|l ls IH]; intros i j H Hi Hlt.
  - destruct i; discriminate.
  - destruct j as [|j]; [lia|]. cbn [firstn List.concat]. rewrite len_app.
    destruct i as [|i]; cbn in Hi.
    + inversion Hi; subst.
      pose proof (concat_firstn_le bs ls j Hbs (fun l' Hl => H l' (or_intror Hl))).
      unfold len at 1. cbn [List.length]. lia.
    + specialize (IH i j (fun l' Hl => H l' (or_intror Hl)) Hi ltac:(lia)).
      specialize (H l (or_introl eq_refl)). lia.
Qed.

Lemma firstn_prefix_cons {A : Type} (x : A) (l l' : list A) :
  (exists k, l' = firstn k l) -> exists k, x :: l' = firstn k (x :: l).
Proof. intros [k ->]. now exists (S k). Qed.

(** ** Facts about the monad and the loops *)

Section Facts.

Variable T : Type.
Variable transport : T -> Request -> T * Response.
Variable connect : T -> T * bool.

Lemma bind_Ok_inv {A B : Type} (m : M T A) (k : A -> M T B) (w w' : World T) (b : B) :
  bind T m k w = (w', Ok b) ->
  exists w1 a, m w = (w1, Ok a) /\ k a w1 = (w', Ok b).
Proof.
  unfold bind. destruct (m w) as [w1 [a|e|]]; intros H; try discriminate.
  exists w1, a. split; [reflexivity | exact H].
Qed.

Lemma bind_ret {A B : Type} (a : A) (k : A -> M T B) (w : World T) :
  bind T (ret T a) k w = k a w.
Proof. reflexivity. Qed.

Lemma world_eta (w : World T) : mkWorld (client w) (stdout w) (trace w) = w.
Proof. now destruct w. Qed.

(** The printing loop over one response never fails: it appends one line per
    register and advances the counter by their number. *)
Lemma print_loop_run (q : string) (regs : list Z) (n : Z) (w : World T) :
  for_ T regs
    (fun br name_cnt =>
       bind T (if mem q ["DS"; "TD"; "SD"]
               then print T (q ++ str_int name_cnt ++ " : " ++ str_int br)
               else print T (q ++ str_int name_cnt ++ " : 0x" ++ fmt_x br))
            (fun _ => ret T (name_cnt + 1))) n w
  = (mkWorld (client w) (stdout w ++ block_lines q n regs) (trace w), Ok (n + len regs)).
Proof.
  revert n w. induction regs as [|br regs IH]; intros n w.
  - cbn. unfold ret, len. cbn. now rewrite app_nil_r, Z.add_0_r, world_eta.
  - cbn [for_ block_lines]. unfold bind at 1.
    assert (E : bind T (if mem q ["DS"; "TD"; "SD"]
                         then print T (q ++ str_int n ++ " : " ++ str_int br)
                         else print T (q ++ str_int n ++ " : 0x" ++ fmt_x br))
                      (fun _ => ret T (n + 1)) w
                = (mkWorld (client w) (stdout w ++ [block_line q n br]) (trace w), Ok (n + 1))).
    { unfold block_line. destruct (mem q ["DS"; "TD"; "SD"]); reflexivity. }
    rewrite E, IH. cbn [client stdout trace].
    rewrite <- app_assoc. cbn [app]. do 2 f_equal.
    unfold len. cbn [List.length]. lia.
Qed.

(** What a completed block loop did: one holding-register read of
    [block_size] per offset of [range(curr_block, count + 1, block_size)],
    every one answered with registers, and the lines numbered through from
    [name_cnt] over the registers returned, in order. *)
Lemma block_loop_Ok (fuel : nat) (q : string) (s c bs cur n : Z) (w w' : World T) :
  0 < bs ->
  block_loop T transport fuel q s c bs cur n w = (w', Ok tt) ->
  exists replies : list (list Z),
    List.length replies = List.length (range3 cur (c + 1) bs) /\
    trace w' = (trace w ++
                combine (map (fun a => mkRequest HoldingRegister (s + a) bs) (range3 cur (c + 1) bs))
                        (map RegistersResponse replies))%list /\
    stdout w' = (stdout w ++ block_lines q n (List.concat replies))%list.
Proof.
  intros Hbs. revert cur n w.
  induction fuel as [|fuel IH]; intros cur n w H; cbn [block_loop] in H;
    destruct (Z.leb_spec cur c) as [Hle|Hgt].
  - discriminate.
  - inversion H; subst. exists []. rewrite range3_nil by lia. cbn.
    now rewrite !app_nil_r.
  - apply bind_Ok_inv in H. destruct H as (w1 & r & Hr & H).
    apply bind_Ok_inv in H. destruct H as (w2 & regs & Hregs & H).
    apply bind_Ok_inv in H. destruct H as (w3 & n' & Hp & H).
    apply IH in H. destruct H as (replies & Hlen & Htr & Hout).
    unfold read_holding_registers, call in Hr.
    destruct (transport (client w) (mkRequest HoldingRegister (s + cur) bs)) as [c1 rsp] eqn:Et.
    destruct rsp as [bl|rl| |]; cbn in Hregs; try discriminate;
      inversion Hr; subst; clear Hr; inversion Hregs; subst; clear Hregs.
    assert (E3 : w3 = mkWorld c1 (stdout w ++ block_lines q n regs) (trace w ++ [(mkRequest HoldingRegister (s + cur) bs, RegistersResponse regs)])
                 /\ n' = n + len regs).
    { destruct regs as [|br regs].
      - cbn in Hp. inversion Hp; subst. cbn. rewrite app_nil_r. unfold len. cbn. split; [reflexivity | lia].
      - cbn [truthy] in Hp. rewrite print_loop_run in Hp. inversion Hp; subst. split; reflexivity. }
    destruct E3 as [-> ->]. cbn [trace stdout] in Htr, Hout.
    exists (regs :: replies). rewrite (range3_cons cur (c + 1) bs) by lia.
    cbn [List.length map combine List.concat]. split; [now rewrite Hlen|]. split.
    + rewrite Htr, <- app_assoc. reflexivity.
    + rewrite Hout, <- app_assoc, block_lines_app. reflexivity.
  - inversion H; subst. exists []. rewrite range3_nil by lia. cbn.
    now rewrite !app_nil_r.
Qed.

(** The block loop never runs out of the fuel [get_registers] gives it. *)
Lemma block_loop_fuel (fuel : nat) (q : string) (s c bs cur n : Z) (w : World T) :
  0 < bs -> (Z.to_nat (c + 1 - cur) <= fuel)%nat ->
  snd (block_loop T transport fuel q s c bs cur n w) <> OutOfFuel.
Proof.
  intros Hbs. revert cur n w.
  induction fuel as [|fuel IH]; intros cur n w Hf; cbn [block_loop];
    destruct (Z.leb_spec cur c) as [Hle|Hgt]; try (cbn; discriminate); try lia.
  unfold bind at 1.
  destruct (read_holding_registers T transport (s + cur) bs w) as [w1 [r|e|]] eqn:Hr;
    [ | cbn; discriminate | ].
  2:{ unfold read_holding_registers, call in Hr.
      destruct (transport (client w) _) as [c1 rsp]. destruct rsp; discriminate. }
  unfold bind at 1. destruct r as [bl|regs| |]; cbn [registers_of raise ret]; try (cbn; discriminate).
  unfold bind at 1.
  assert (E : exists w3 n', (if truthy regs
       then for_ T regs
           (fun br name_cnt =>
            bind T (if mem q ["DS"; "TD"; "SD"]
             then print T (q ++ str_int name_cnt ++ " : " ++ str_int br)
             else print T (q ++ str_int name_cnt ++ " : 0x" ++ fmt_x br))
            (fun _ => ret T (name_cnt + 1))) n
       else ret T n) w1 = (w3, Ok n')).
  { destruct regs; cbn [truthy]; [eexists _, _; reflexivity|].
    rewrite print_loop_run. eexists _, _; reflexivity. }
  destruct E as (w3 & n' & ->). apply IH. lia.
Qed.


(** *** The block branch of get_registers *)

Lemma get_registers_block (q : string) (s lo hi : Z) (w : World T) :
  lookup q reg_start_addrs = Some s ->
  lookup q type_ranges = Some (lo, hi) ->
  mem q ["DS"; "TD"; "SD"; "DH"; "TXT"] = true ->
  get_registers T transport q w
  = block_loop T transport (Z.to_nat (hi + 1 - 0)) q s hi 100 0 lo w.
Proof.
  intros Hs Hr Hm. unfold get_registers, getitem. rewrite Hs, Hr, Hm.
  reflexivity.
Qed.

(** A completed query of a block type, as a log and the lines printed. *)
Lemma get_registers_block_Ok (q : string) (s lo hi : Z) (w w' : World T) :
  lookup q reg_start_addrs = Some s ->
  lookup q type_ranges = Some (lo, hi) ->
  mem q ["DS"; "TD"; "SD"; "DH"; "TXT"] = true ->
  get_registers T transport q w = (w', Ok tt) ->
  exists replies : list (list Z),
    List.length replies = List.length (range3 0 (hi + 1) 100) /\
    trace w' = (trace w ++
                combine (map (fun a => mkRequest HoldingRegister (s + a) 100) (range3 0 (hi + 1) 100))
                        (map RegistersResponse replies))%list /\
    stdout w' = (stdout w ++ block_lines q lo (List.concat replies))%list.
Proof.
  intros Hs Hr Hm H. rewrite (get_registers_block q s lo hi w Hs Hr Hm) in H.
  apply block_loop_Ok in H; [exact H | lia].
Qed.

(** A query of a block type always comes back: with a result or an
    exception, never for want of fuel. *)
Lemma get_registers_block_total (q : string) (s lo hi : Z) (w : World T) :
  lookup q reg_start_addrs = Some s ->
  lookup q type_ranges = Some (lo, hi) ->
  mem q ["DS"; "TD"; "SD"; "DH"; "TXT"] = true ->
  snd (get_registers T transport q w) <> OutOfFuel.
Proof.
  intros Hs Hr Hm. rewrite (get_registers_block q s lo hi w Hs Hr Hm).
  apply block_loop_fuel; lia.
Qed.

(** A block loop with fuel enough: its reads are an initial part of the
    offsets of the range, all of them when it completes; it completes or
    ends in ModbusException or AttributeError. *)
Lemma block_loop_shape (fuel : nat) (q : string) (s c bs cur n : Z) (w : World T) :
  0 < bs -> (Z.to_nat (c + 1 - cur) <= fuel)%nat ->
  exists tr : list (Request * Response),
    trace (fst (block_loop T transport fuel q s c bs cur n w)) = (trace w ++ tr)%list /\
    (exists k, map fst tr
               = firstn k (map (fun a => mkRequest HoldingRegister (s + a) bs)
                               (range3 cur (c + 1) bs))) /\
    (snd (block_loop T transport fuel q s c bs cur n w) = Ok tt ->
     map fst tr = map (fun a => mkRequest HoldingRegister (s + a) bs) (range3 cur (c + 1) bs)) /\
    (snd (block_loop T transport fuel q s c bs cur n w) = Ok tt \/
     snd (block_loop T transport fuel q s c bs cur n w) = Raised ModbusException \/
     snd (block_loop T transport fuel q s c bs cur n w) = Raised AttributeError).
Proof.
  intros Hbs. revert cur n w.
  induction fuel as [|fuel IH]; intros cur n w Hf;
    remember (block_loop T transport _ q s c bs cur n w) as R eqn:ER;
    cbn [block_loop] in ER;
    destruct (Z.leb_spec cur c) as [Hle|Hgt]; try lia.
  - subst R. exists []. rewrite range3_nil by lia. cbn. rewrite app_nil_r.
    repeat split; auto. now exists 0%nat.
  - rewrite (range3_cons cur (c + 1) bs) by lia. cbn [map].
    unfold bind at 1 in ER. unfold read_holding_registers, call in ER.
    destruct (transport (client w) (mkRequest HoldingRegister (s + cur) bs)) as [c1 rsp].
    destruct rsp as [bl|regs| |];
      try (subst R; eexists [_]; cbn; repeat split;
           [now exists 1%nat | discriminate | auto]).
    unfold bind at 1 in ER. cbn [registers_of] in ER. unfold ret at 1 in ER.
    unfold bind at 1 in ER.
    assert (E : exists out n', (if truthy regs
       then for_ T regs
           (fun br name_cnt =>
            bind T (if mem q ["DS"; "TD"; "SD"]
             then print T (q ++ str_int name_cnt ++ " : " ++ str_int br)
             else print T (q ++ str_int name_cnt ++ " : 0x" ++ fmt_x br))
            (fun _ => ret T (name_cnt + 1))) n
       else ret T n)
         (mkWorld c1 (stdout w) (trace w ++ [(mkRequest HoldingRegister (s + cur) bs, RegistersResponse regs)]))
       = (mkWorld c1 out (trace w ++ [(mkRequest HoldingRegister (s + cur) bs, RegistersResponse regs)]), Ok n')).
    { destruct regs; cbn [truthy]; [eexists _, _; reflexivity|].
      rewrite print_loop_run. eexists _, _; reflexivity. }
    destruct E as (out & n' & E). rewrite E in ER. subst R.
    destruct (IH (cur + bs) n'
                 (mkWorld c1 out (trace w ++ [(mkRequest HoldingRegister (s + cur) bs, RegistersResponse regs)]))
                 ltac:(lia))
      as (tr & Htr & Hk & Hok & Hres).
    exists ((mkRequest HoldingRegister (s + cur) bs, RegistersResponse regs) :: tr).
    split; [rewrite Htr; cbn [trace]; now rewrite <- app_assoc|].
    split; [cbn [map fst]; now apply firstn_prefix_cons|].
    split; [intros H; cbn [map fst]; f_equal; now apply Hok | exact Hres].
  - subst R. exists []. rewrite range3_nil by lia. cbn. rewrite app_nil_r.
    repeat split; auto. now exists 0%nat.
Qed.

Lemma register_plan_block (q : string) (s lo hi size : Z) :
  lookup q reg_start_addrs = Some s ->
  lookup q type_ranges = Some (lo, hi) ->
  lookup q reg_sizes = Some size ->
  mem q ["DS"; "TD"; "SD"; "DH"; "TXT"] = true ->
  register_plan q
  = map (fun a => mkRequest HoldingRegister (s + a) 100) (range3 0 (hi + 1) 100).
Proof. intros Hs Hr Hsize Hm. unfold register_plan. now rewrite Hs, Hr, Hsize, Hm. Qed.

(** Whatever way the block loop ends, the lines it printed are those of the
    registers its reads returned, in order and numbered through from
    [name_cnt]; and it makes a first read whenever its range is not empty. *)
Lemma block_loop_lines (fuel : nat) (q : string) (s c bs cur n : Z) (w : World T) :
  exists tr : list (Request * Response),
    trace (fst (block_loop T transport fuel q s c bs cur n w)) = (trace w ++ tr)%list /\
    stdout (fst (block_loop T transport fuel q s c bs cur n w))
      = (stdout w ++ block_lines q n (List.concat (map (fun x => returned (snd x)) tr)))%list /\
    (cur <= c -> (0 < fuel)%nat -> tr <> []).
Proof.
  revert cur n w.
  induction fuel as [|fuel IH]; intros cur n w;
    remember (block_loop T transport _ q s c bs cur n w) as R eqn:ER;
    cbn [block_loop] in ER;
    destruct (Z.leb_spec cur c) as [Hle|Hgt].
  - subst R. exists []. cbn. rewrite !app_nil_r. repeat split. lia.
  - subst R. exists []. cbn. rewrite !app_nil_r. repeat split. lia.
  - unfold bind at 1 in ER. unfold read_holding_registers, call in ER.
    destruct (transport (client w) (mkRequest HoldingRegister (s + cur) bs)) as [c1 rsp].
    destruct rsp as [bl|regs| |];
      try (subst R; eexists [_]; cbn; split; [reflexivity|];
           split; [cbn; now rewrite app_nil_r | discriminate]).
    unfold bind at 1 in ER. cbn [registers_of] in ER. unfold ret at 1 in ER.
    unfold bind at 1 in ER.
    assert (E : (if truthy regs
       then for_ T regs
           (fun br name_cnt =>
            bind T (if mem q ["DS"; "TD"; "SD"]
             then print T (q ++ str_int name_cnt ++ " : " ++ str_int br)
             else print T (q ++ str_int name_cnt ++ " : 0x" ++ fmt_x br))
            (fun _ => ret T (name_cnt + 1))) n
       else ret T n)
         (mkWorld c1 (stdout w) (trace w ++ [(mkRequest HoldingRegister (s + cur) bs, RegistersResponse regs)]))
       = (mkWorld c1 (stdout w ++ block_lines q n regs)
                  (trace w ++ [(mkRequest HoldingRegister (s + cur) bs, RegistersResponse regs)]),
          Ok (n + len regs))).
    { destruct regs; cbn [truthy].
      - unfold ret, len. cbn. now rewrite app_nil_r, Z.add_0_r.
      - rewrite print_loop_run. reflexivity. }
    rewrite E in ER. subst R.
    destruct (IH (cur + bs) (n + len regs)
                 (mkWorld c1 (stdout w ++ block_lines q n regs)
                          (trace w ++ [(mkRequest HoldingRegister (s + cur) bs, RegistersResponse regs)])))
      as (tr & Htr & Hout & _).
    exists ((mkRequest HoldingRegister (s + cur) bs, RegistersResponse regs) :: tr).
    split; [rewrite Htr; cbn [trace]; now rewrite <- app_assoc|].
    split; [|discriminate].
    rewrite Hout. cbn [stdout map snd returned List.concat].
    now rewrite <- app_assoc, block_lines_app.
  - subst R. exists []. cbn. rewrite !app_nil_r. repeat split. lia.
Qed.

(** A query of a block type, however it ends: its reads against the plan,
    the lines it printed, and where each returned register was printed. *)
Lemma get_registers_block_run (q : string) (s lo hi : Z) (w : World T) :
  mem q ["DS"; "TD"; "SD"; "DH"; "TXT"] = true ->
  lookup q reg_start_addrs = Some s ->
  lookup q type_ranges = Some (lo, hi) ->
  0 <= hi ->
  exists tr : list (Request * Response),
    trace (fst (get_registers T transport q w)) = (trace w ++ tr)%list /\
    tr <> [] /\
    (exists k, map fst tr
               = firstn k (map (fun a => mkRequest HoldingRegister (s + a) 100)
                               (range3 0 (hi + 1) 100))) /\
    (snd (get_registers T transport q w) = Ok tt ->
     map fst tr = map (fun a => mkRequest HoldingRegister (s + a) 100) (range3 0 (hi + 1) 100)) /\
    stdout (fst (get_registers T transport q w))
      = (stdout w ++ block_lines q lo (List.concat (map (fun x => returned (snd x)) tr)))%list /\
    forall (j : nat) (rq : Request) (regs : list Z) (p : nat) (br : Z),
      nth_error tr j = Some (rq, RegistersResponse regs) ->
      nth_error regs p = Some br ->
      let label := lo + returned_before tr j + Z.of_nat p in
      nth_error (stdout (fst (get_registers T transport q w)))
                (List.length (stdout w) + Z.to_nat (returned_before tr j) + p)
        = Some (block_line q label br) /\
      address rq = s + 100 * Z.of_nat j /\
      ((forall i rq' rsp', nth_error tr i = Some (rq', rsp') ->
                           len (returned rsp') <= count rq') ->
       (exists i rq', (i < j)%nat /\ nth_error tr i = Some (rq', RegistersResponse [])) ->
       label < spec_instance_at s lo (address rq + Z.of_nat p)).
Proof.
  intros Hm Hs Hr Hhi. rewrite (get_registers_block q s lo hi w Hs Hr Hm).
  set (fuel := Z.to_nat (hi + 1 - 0)).
  set (plan := map (fun a => mkRequest HoldingRegister (s + a) 100) (range3 0 (hi + 1) 100)).
  destruct (block_loop_lines fuel q s hi 100 0 lo w) as (tr & Htr & Hout & Hne).
  destruct (block_loop_shape fuel q s hi 100 0 lo w ltac:(lia) ltac:(subst fuel; lia))
    as (tr' & Htr' & Hk & Hok & _).
  assert (tr' = tr) as ->.
  { rewrite Htr in Htr'. now apply app_inv_head in Htr'. }
  fold plan in Hk, Hok.
  exists tr. split; [exact Htr|]. split; [apply Hne; subst fuel; lia|].
  split; [exact Hk|]. split; [exact Hok|]. split; [exact Hout|].
  set (ls := map (fun x => returned (snd x)) tr) in *.
  assert (Hret : forall j, returned_before tr j = len (List.concat (firstn j ls))).
  { intros j. unfold returned_before, ls. now rewrite firstn_map. }
  assert (Hreq : forall i rq' rsp', nth_error tr i = Some (rq', rsp') ->
                   rq' = mkRequest HoldingRegister (s + (0 + Z.of_nat i * 100)) 100).
  { intros i rq' rsp' Hi. destruct Hk as [k Hk].
    assert (Hi' : nth_error (map fst tr) i = Some rq').
    { rewrite nth_error_map, Hi. reflexivity. }
    rewrite Hk in Hi'.
    assert (Hp : nth_error plan i = Some rq').
    { revert Hi'. clear. revert i. generalize plan as l.
      induction k as [|k IH]; intros l i H.
      - destruct i; discriminate H.
      - destruct l as [|x l]; [destruct i; discriminate H|].
        destruct i as [|i]; [exact H | cbn in H |- *; now apply IH]. }
    unfold plan in Hp. rewrite nth_error_map in Hp.
    destruct (nth_error (range3 0 (hi + 1) 100) i) as [a|] eqn:Ea; [|discriminate].
    apply range3_nth in Ea; [|lia]. subst a. cbn in Hp. now inversion Hp. }
  assert (Hls : forall i rq' rsp', nth_error tr i = Some (rq', rsp') ->
                  nth_error ls i = Some (returned rsp')).
  { intros i rq' rsp' Hi. unfold ls. rewrite nth_error_map, Hi. reflexivity. }
  intros j rq regs p br Hj Hp label. subst label. rewrite Hret.
  pose proof (Hls j rq _ Hj) as Hlj. cbn [returned] in Hlj.
  pose proof (Hreq j rq _ Hj) as Erq.
  split; [|split].
  - rewrite Hout. rewrite nth_error_app2 by lia.
    replace (List.length (stdout w) + Z.to_nat (len (List.concat (firstn j ls))) + p
             - List.length (stdout w))%nat
      with (List.length (List.concat (firstn j ls)) + p)%nat
      by (unfold len; lia).
    rewrite (block_lines_nth q lo _ _ br (concat_nth ls j p regs br Hlj Hp)).
    do 2 f_equal. unfold len. lia.
  - subst rq. cbn [address]. lia.
  - intros Hshort (i & rq' & Hij & Hi).
    pose proof (Hls i rq' _ Hi) as Hli. cbn [returned] in Hli.
    assert (Hall : forall l, In l ls -> len l <= 100).
    { intros l Hl. apply In_nth_error in Hl. destruct Hl as [k Hk'].
      unfold ls in Hk'. rewrite nth_error_map in Hk'.
      destruct (nth_error tr k) as [[rqk rspk]|] eqn:Ek; [|discriminate].
      cbn in Hk'. inversion Hk'; subst l.
      pose proof (Hshort k rqk rspk Ek) as Hle.
      rewrite (Hreq k rqk rspk Ek) in Hle. exact Hle. }
    pose proof (concat_firstn_gap 100 ls i j ltac:(lia) Hall Hli Hij) as Hgap.
    subst rq. unfold spec_instance_at. cbn [address]. lia.
Qed.

(** *** The per-value branch of get_registers *)

Lemma bytes_of_registers_run (bl : list Z) (w : World T) :
  bytes_of_registers T bl w = of_option T OverflowError (registers_bytes bl) w.
Proof.
  induction bl as [|v bl IH]; cbn [bytes_of_registers registers_bytes]; [reflexivity|].
  unfold bind at 1. destruct (to_bytes2 v) as [b|]; cbn [of_option]; [|reflexivity].
  unfold ret at 1, bind at 1. rewrite IH.
  destruct (registers_bytes bl); reflexivity.
Qed.

Lemma append_loop_run (b acc : list Z) (w : World T) :
  for_ T b (fun v a => ret T (a ++ [v])%list) acc w = (w, Ok (acc ++ b)%list).
Proof.
  revert acc. induction b as [|v b IH]; intros acc; cbn [for_].
  - unfold ret. now rewrite app_nil_r.
  - unfold bind at 1, ret at 1. rewrite IH, <- app_assoc. reflexivity.
Qed.

Lemma script_bytes_loop_run (bl acc : list Z) (w : World T) :
  for_ T bl (fun reg_val a =>
               bind T (of_option T OverflowError (to_bytes2 reg_val))
                    (fun b => for_ T b (fun v a => ret T (a ++ [v])%list) a)) acc w
  = match registers_bytes bl with
    | Some a => (w, Ok (acc ++ a)%list)
    | None => (w, Raised OverflowError)
    end.
Proof.
  revert acc. induction bl as [|v bl IH]; intros acc; cbn [for_ registers_bytes].
  - unfold ret. now rewrite app_nil_r.
  - unfold bind at 1. unfold bind at 1.
    destruct (to_bytes2 v) as [b|]; cbn [of_option]; [|reflexivity].
    unfold ret at 1. rewrite append_loop_run, IH.
    destruct (registers_bytes bl); [|reflexivity]. now rewrite <- app_assoc.
Qed.

Lemma script_bytes_of_registers_run (bl : list Z) (w : World T) :
  script_bytes_of_registers T bl w = of_option T OverflowError (registers_bytes bl) w.
Proof.
  unfold script_bytes_of_registers. rewrite script_bytes_loop_run.
  destruct (registers_bytes bl); reflexivity.
Qed.

(** One turn of the per-value loop is a function of what the client answers. *)
Lemma value_step_run (q : string) (s b n size : Z) (w : World T) (c1 : T) (rsp : Response) :
  lookup q reg_sizes = Some size ->
  transport (client w) (mkRequest (value_class q) (s + b) size) = (c1, rsp) ->
  value_step T transport q s b n w =
  let tr := (trace w ++ [(mkRequest (value_class q) (s + b) size, rsp)])%list in
  match rsp with
  | RegistersResponse regs =>
      (mkWorld c1 (stdout w ++ fst (decoded fmt_4f q n regs)) tr,
       next n (snd (decoded fmt_4f q n regs)))
  | Raises => (mkWorld c1 (stdout w) tr, Raised ModbusException)
  | _ => (mkWorld c1 (stdout w) tr, Raised AttributeError)
  end.
Proof.
  intros Hsize Ht. unfold value_step, getitem. rewrite Hsize. cbn [of_option].
  unfold bind at 1, ret at 1. unfold value_class in Ht |- *.
  unfold bind at 1.
  assert (E : (if (q =? "XD")%string
               then read_input_registers T transport (s + b) size
               else read_holding_registers T transport (s + b) size) w
              = call T transport (mkRequest (if (q =? "XD")%string then InputRegister else HoldingRegister) (s + b) size) w).
  { destruct (q =? "XD")%string; reflexivity. }
  rewrite E. clear E. unfold call. rewrite Ht.
  destruct rsp as [bl|regs| |]; cbn zeta; try reflexivity.
  unfold decoded.
  destruct regs as [|r0 regs].
  { cbv [bind ret when registers_of truthy fst snd next]. now rewrite app_nil_r. }
  destruct (registers_bytes (r0 :: regs)) as [a|] eqn:Eb;
    [destruct (unpack_f a) as [fn|] eqn:Eu|];
    destruct (mem q ["DD"; "CTD"; "XD"; "YD"]);
    destruct (q =? "DF")%string;
    repeat (cbv [bind ret raise print when of_option registers_of truthy fst snd
                 client stdout trace next];
            rewrite ?bytes_of_registers_run, ?Eb, ?Eu);
    rewrite ?app_nil_r, <- ?app_assoc; reflexivity.
Qed.

Lemma script_value_step_run (q : string) (s b n size : Z) (w : World T) (c1 : T) (rsp : Response) :
  lookup q reg_sizes = Some size ->
  transport (client w) (mkRequest (value_class q) (s + b) size) = (c1, rsp) ->
  script_value_step T transport q s b n w =
  let tr := (trace w ++ [(mkRequest (value_class q) (s + b) size, rsp)])%list in
  match rsp with
  | RegistersResponse regs =>
      (mkWorld c1 (stdout w ++ fst (decoded fmt_pct04f q n regs)) tr,
       next n (snd (decoded fmt_pct04f q n regs)))
  | Raises => (mkWorld c1 (stdout w) tr, Raised ModbusException)
  | _ => (mkWorld c1 (stdout w) tr, Raised AttributeError)
  end.
Proof.
  intros Hsize Ht. unfold script_value_step, getitem. rewrite Hsize. cbn [of_option].
  unfold bind at 1, ret at 1. unfold value_class in Ht |- *.
  unfold bind at 1.
  assert (E : (if (q =? "XD")%string
               then read_input_registers T transport (s + b) size
               else read_holding_registers T transport (s + b) size) w
              = call T transport (mkRequest (if (q =? "XD")%string then InputRegister else HoldingRegister) (s + b) size) w).
  { destruct (q =? "XD")%string; reflexivity. }
  rewrite E. clear E. unfold call. rewrite Ht.
  destruct rsp as [bl|regs| |]; cbn zeta; try reflexivity.
  unfold decoded.
  destruct regs as [|r0 regs].
  { cbv [bind ret when registers_of truthy fst snd next]. now rewrite app_nil_r. }
  destruct (registers_bytes (r0 :: regs)) as [a|] eqn:Eb;
    [destruct (unpack_f a) as [fn|] eqn:Eu|];
    destruct (mem q ["DD"; "CTD"; "XD"; "YD"]);
    destruct (q =? "DF")%string;
    repeat (cbv [bind ret raise print when of_option registers_of truthy fst snd
                 client stdout trace next];
            rewrite ?script_bytes_of_registers_run, ?Eb, ?Eu);
    rewrite ?app_nil_r, <- ?app_assoc; reflexivity.
Qed.

(** A turn prints nothing or one line, and the line carries the counter. *)
Lemma decoded_shape (fmt : spec_float -> string) (q : string) (n : Z) (regs : list Z) :
  fst (decoded fmt q n regs) = [] \/
  exists v, fst (decoded fmt q n regs) = [q ++ str_int n ++ " : " ++ v].
Proof.
  unfold decoded. destruct (truthy regs); [|now left].
  destruct (q =? "DF")%string eqn:Edf.
  - apply String.eqb_eq in Edf. subst q. cbn [mem existsb String.eqb Ascii.eqb Bool.eqb orb fst snd].
    cbn. destruct (registers_bytes regs) as [a|]; [|now left].
    destruct (unpack_f a); [right; eexists; reflexivity | now left].
  - destruct (mem q ["DD"; "CTD"; "XD"; "YD"]); [|now left].
    destruct (registers_bytes regs) as [a|]; [right; eexists; reflexivity | now left].
Qed.

(** A completed per-value loop: one read of [size] registers per element of
    the range, the counter advancing by one per read, and per read the lines
    it printed. *)
Lemma value_loop_Ok (q : string) (s size : Z) (l : list Z) (n n' : Z) (w w' : World T) :
  lookup q reg_sizes = Some size ->
  for_ T l (value_step T transport q s) n w = (w', Ok n') ->
  exists steps : list (list Z),
    List.length steps = List.length l /\
    n' = n + len l /\
    trace w' = (trace w ++
                combine (map (fun b => mkRequest (value_class q) (s + b) size) l)
                        (map RegistersResponse steps))%list /\
    stdout w' = (stdout w ++ List.concat (value_outputs fmt_4f q n steps))%list.
Proof.
  intros Hsize. revert n w. induction l as [|b l IH]; intros n w H; cbn [for_] in H.
  - inversion H; subst. exists []. cbn. rewrite !app_nil_r. unfold len. cbn. repeat split; lia.
  - apply bind_Ok_inv in H. destruct H as (w1 & n1 & Hstep & H).
    destruct (transport (client w) (mkRequest (value_class q) (s + b) size)) as [c1 rsp] eqn:Et.
    rewrite (value_step_run q s b n size w c1 rsp Hsize Et) in Hstep. cbn zeta in Hstep.
    destruct rsp as [bl|regs| |]; try discriminate.
    inversion Hstep as [[Hw1 Hn1]]. clear Hstep.
    destruct (snd (decoded fmt_4f q n regs)) as [[]|e|] eqn:Er; try discriminate.
    cbn [next] in Hn1. inversion Hn1; subst n1. clear Hn1.
    apply IH in H. destruct H as (steps & Hlen & Hn' & Htr & Hout).
    subst w1. cbn [trace stdout] in Htr, Hout.
    exists (regs :: steps). cbn [List.length map combine List.concat value_outputs].
    split; [now rewrite Hlen|]. split; [unfold len in *; cbn [List.length]; lia|]. split.
    + rewrite Htr, <- app_assoc. reflexivity.
    + rewrite Hout, <- app_assoc. reflexivity.
Qed.

Lemma value_outputs_length (fmt : spec_float -> string) (q : string) (n : Z)
    (steps : list (list Z)) :
  List.length (value_outputs fmt q n steps) = List.length steps.
Proof. revert n. induction steps; intros; cbn; auto. Qed.

Lemma value_outputs_nth (fmt : spec_float -> string) (q : string) (n : Z)
    (steps : list (list Z)) (k : nat) :
  nth_error (value_outputs fmt q n steps) k
  = option_map (fun regs => fst (decoded fmt q (n + Z.of_nat k) regs)) (nth_error steps k).
Proof.
  revert n k. induction steps as [|regs steps IH]; intros n [|k]; cbn; try reflexivity.
  - now rewrite Z.add_0_r.
  - rewrite IH. destruct (nth_error steps k); cbn; [|reflexivity].
    do 3 f_equal. lia.
Qed.

Lemma get_registers_values (q : string) (s lo hi size : Z) (w : World T) :
  lookup q reg_start_addrs = Some s ->
  lookup q type_ranges = Some (lo, hi) ->
  lookup q reg_sizes = Some size ->
  mem q ["DS"; "TD"; "SD"; "DH"; "TXT"] = false ->
  size <> 0 ->
  get_registers T transport q w
  = bind T (for_ T (range3 lo (hi + 1) size) (value_step T transport q s) lo)
         (fun _ => ret T tt) w.
Proof.
  intros Hs Hr Hsize Hm Hnz. unfold get_registers, getitem. rewrite Hs, Hr, Hsize, Hm.
  cbn [of_option]. repeat (rewrite bind_ret; cbv beta).
  apply Z.eqb_neq in Hnz. rewrite Hnz. reflexivity.
Qed.

(** A completed query of a per-value type, as a log and the lines printed. *)
Lemma get_registers_values_Ok (q : string) (s lo hi size : Z) (w w' : World T) :
  lookup q reg_start_addrs = Some s ->
  lookup q type_ranges = Some (lo, hi) ->
  lookup q reg_sizes = Some size ->
  mem q ["DS"; "TD"; "SD"; "DH"; "TXT"] = false ->
  size <> 0 ->
  get_registers T transport q w = (w', Ok tt) ->
  exists steps : list (list Z),
    List.length steps = List.length (range3 lo (hi + 1) size) /\
    trace w' = (trace w ++
                combine (map (fun b => mkRequest (value_class q) (s + b) size)
                             (range3 lo (hi + 1) size))
                        (map RegistersResponse steps))%list /\
    stdout w' = (stdout w ++ List.concat (value_outputs fmt_4f q lo steps))%list.
Proof.
  intros Hs Hr Hsize Hm Hnz H.
  rewrite (get_registers_values q s lo hi size w Hs Hr Hsize Hm Hnz) in H.
  apply bind_Ok_inv in H. destruct H as (w1 & n1 & Hloop & Hret).
  inversion Hret; subst w1.
  apply (value_loop_Ok q s size _ _ _ _ _ Hsize) in Hloop.
  destruct Hloop as (steps & Hlen & _ & Htr & Hout). exists steps. auto.
Qed.

(** C3 (the code departs from it for DD, CTD and DF). In a completed query
    of a per-value type every line printed with the [k]-th read carries the
    label [instanceRange.min + k], and that read starts at
    [baseAddress + instanceRange.min + k * wordsPerValue]: the resolver's
    address for that instance plus [instanceRange.min]. *)
Theorem value_read_starts_at_base_plus_min
    (q : string) (s lo hi size : Z) (w w' : World T) :
  In q ["DD"; "CTD"; "DF"; "XD"; "YD"] ->
  lookup q reg_start_addrs = Some s ->
  lookup q type_ranges = Some (lo, hi) ->
  lookup q reg_sizes = Some size ->
  get_registers T transport q w = (w', Ok tt) ->
  exists (tr : list (Request * Response)) (outs : list (list string)),
    trace w' = (trace w ++ tr)%list /\
    stdout w' = (stdout w ++ List.concat outs)%list /\
    List.length outs = List.length tr /\
    forall (k : nat) (rq : Request) (rsp : Response) (ls : list string),
      nth_error tr k = Some (rq, rsp) ->
      nth_error outs k = Some ls ->
      (ls = [] \/ exists v, ls = [q ++ str_int (lo + Z.of_nat k) ++ " : " ++ v]) /\
      address rq = s + lo + Z.of_nat k * size /\
      address rq = spec_resolve s lo size (lo + Z.of_nat k) + lo.
Proof.
  intros Hq Hs Hr Hsize H.
  assert (Hfacts : mem q ["DS"; "TD"; "SD"; "DH"; "TXT"] = false /\ 0 < size).
  { cbn [In] in Hq. destruct Hq as [<-|[<-|[<-|[<-|[<-|[]]]]]];
      vm_compute in Hsize; inversion Hsize; split; reflexivity. }
  destruct Hfacts as [Hm Hpos].
  destruct (get_registers_values_Ok q s lo hi size w w' Hs Hr Hsize Hm ltac:(lia) H)
    as (steps & Hlen & Htr & Hout).
  exists (combine (map (fun b => mkRequest (value_class q) (s + b) size) (range3 lo (hi + 1) size))
                  (map RegistersResponse steps)),
         (value_outputs fmt_4f q lo steps).
  split; [exact Htr|]. split; [exact Hout|]. split.
  { rewrite value_outputs_length, length_combine, !length_map, Hlen. lia. }
  intros k rq rsp ls Hk Hls.
  rewrite nth_error_combine_eq, !nth_error_map in Hk.
  destruct (nth_error (range3 lo (hi + 1) size) k) as [b|] eqn:Eb; [|discriminate].
  destruct (nth_error steps k) as [regs|] eqn:Est; [|discriminate].
  cbn in Hk. inversion Hk; subst rq rsp; clear Hk.
  rewrite value_outputs_nth, Est in Hls. cbn in Hls. inversion Hls; subst ls; clear Hls.
  apply range3_nth in Eb; [|exact Hpos]. subst b.
  split; [apply decoded_shape|]. unfold spec_resolve. cbn [address]. split; lia.
Qed.

Lemma coverage_zero_above (plan : list Request) (bound a : Z) :
  forallb (fun rq => address rq + count rq <=? bound) plan = true ->
  bound <= a -> coverage plan a = 0%nat.
Proof.
  intros H Ha. unfold coverage. induction plan as [|rq plan IH]; [reflexivity|].
  cbn [forallb] in H. apply andb_true_iff in H. destruct H as [H1 H2].
  cbn [filter]. apply Z.leb_le in H1.
  assert (E : covers rq a = false).
  { unfold covers. apply andb_false_iff. right. apply Z.ltb_ge. lia. }
  rewrite E. apply IH, H2.
Qed.

(** C1 (the code departs from it; DD is the instance shown). A completed DD
    query issues requests none of which reads the register where, by the
    resolver, instance 1 starts, and none of which reads any register of the
    instances 502 to 1000. *)
Theorem DD_requests_leave_instances_unread (w w' : World T) :
  get_registers T transport "DD" w = (w', Ok tt) ->
  exists tr : list (Request * Response),
    trace w' = (trace w ++ tr)%list /\
    List.length tr = 500%nat /\
    coverage (map fst tr) (spec_resolve 0x4000 1 2 1) = 0%nat /\
    forall i, 502 <= i <= 1000 ->
      coverage (map fst tr) (spec_resolve 0x4000 1 2 i) = 0%nat /\
      coverage (map fst tr) (spec_resolve 0x4000 1 2 i + 1) = 0%nat.
Proof.
  intros H.
  destruct (get_registers_values_Ok "DD" 0x4000 1 1000 2 w w'
              eq_refl eq_refl eq_refl eq_refl ltac:(lia) H)
    as (steps & Hlen & Htr & _).
  eexists. split; [exact Htr|].
  assert (Hl : List.length (map RegistersResponse steps)
               = List.length (map (fun b => mkRequest (value_class "DD") (0x4000 + b) 2)
                                  (range3 1 (1000 + 1) 2))).
  { now rewrite !length_map. }
  rewrite (map_fst_combine_eq _ _ Hl).
  split.
  { rewrite length_combine, Hl, Nat.min_id, length_map. vm_compute. reflexivity. }
  split; [vm_compute; reflexivity|].
  intros i Hi. unfold spec_resolve.
  split; apply (coverage_zero_above _ (0x4000 + 1001)); try lia; vm_compute; reflexivity.
Qed.

(** *** The queries always come back *)

Lemma for_total {A S : Type} (l : list A) (body : A -> S -> M T S) (s : S) (w : World T) :
  (forall x s' w', snd (body x s' w') <> OutOfFuel) ->
  snd (for_ T l body s w) <> OutOfFuel.
Proof.
  intros H. revert s w. induction l as [|x l IH]; intros s w; cbn [for_].
  - cbn. discriminate.
  - unfold bind. specialize (H x s w).
    destruct (body x s w) as [w1 [s1|e|]]; cbn in *; [apply IH | discriminate | congruence].
Qed.

Lemma decoded_total (fmt : spec_float -> string) (q : string) (n : Z) (regs : list Z) :
  snd (decoded fmt q n regs) <> OutOfFuel.
Proof.
  unfold decoded.
  destruct (truthy regs); [|cbn; discriminate].
  destruct (mem q ["DD"; "CTD"; "XD"; "YD"]);
    destruct (registers_bytes regs) as [a|]; cbn [fst snd];
    destruct (q =? "DF")%string; try (cbn; discriminate);
    destruct (unpack_f a); cbn; discriminate.
Qed.

Lemma value_step_total (q : string) (s b n : Z) (w : World T) :
  snd (value_step T transport q s b n w) <> OutOfFuel.
Proof.
  destruct (lookup q reg_sizes) as [size|] eqn:Hsize.
  - destruct (transport (client w) (mkRequest (value_class q) (s + b) size)) as [c1 rsp] eqn:Et.
    rewrite (value_step_run q s b n size w c1 rsp Hsize Et). cbn zeta.
    destruct rsp as [bl|regs| |]; cbn [snd]; try discriminate.
    pose proof (decoded_total fmt_4f q n regs) as H.
    destruct (snd (decoded fmt_4f q n regs)); cbn; [discriminate | discriminate | congruence].
  - unfold value_step, getitem. rewrite Hsize. cbn. discriminate.
Qed.

(** [get_registers] ends with a result or a Python exception on every
    symbol and every client: the fuel of the block loop always suffices. *)
Lemma get_registers_total (q : string) (w : World T) :
  snd (get_registers T transport q w) <> OutOfFuel.
Proof.
  unfold get_registers, getitem.
  destruct (lookup q reg_start_addrs) as [s|]; [|cbn; discriminate].
  destruct (lookup q type_ranges) as [[lo hi]|]; [|cbn; discriminate].
  cbn [of_option]. repeat (rewrite bind_ret; cbv beta). cbn [fst snd].
  destruct (mem q ["DS"; "TD"; "SD"; "DH"; "TXT"]).
  - apply block_loop_fuel; lia.
  - destruct (lookup q reg_sizes) as [size|]; [|cbn; discriminate].
    cbn [of_option]. repeat (rewrite bind_ret; cbv beta). cbn [fst snd].
    destruct (size =? 0); [unfold bind, raise; cbn; discriminate|].
    rewrite bind_ret. cbv beta.
    pose proof (for_total (range3 lo (hi + 1) size) (value_step T transport q s) lo w
                  (value_step_total q s)) as H.
    unfold bind.
    destruct (for_ T (range3 lo (hi + 1) size) (value_step T transport q s) lo w)
      as [w1 [n1|e|]]; cbn in *; [discriminate | discriminate | congruence].
Qed.

(** C6 (the code departs from it). A completed DS query reads 46 blocks of
    100 registers, at the offsets 0, 100, ..., 4500: one block more than the
    45 that hold DS1 to DS4500, the last one starting at
    [baseAddress + instanceRange.max]; and every register returned, that
    block's included, is printed. *)
Theorem DS_query_reads_46_blocks (w w' : World T) :
  get_registers T transport "DS" w = (w', Ok tt) ->
  exists tr : list (Request * Response),
    trace w' = (trace w ++ tr)%list /\
    map fst tr = map (fun k => mkRequest HoldingRegister (0x0000 + 100 * Z.of_nat k) 100)
                     (seq 0 46) /\
    nth_error (map fst tr) 45 = Some (mkRequest HoldingRegister (0x0000 + 4500) 100) /\
    stdout w' = (stdout w ++
                 block_lines "DS" 1 (List.concat (map (fun x => returned (snd x)) tr)))%list.
Proof.
  intros H.
  destruct (get_registers_block_Ok "DS" 0x0000 1 4500 w w' eq_refl eq_refl eq_refl H)
    as (replies & Hlen & Htr & Hout).
  eexists. split; [exact Htr|].
  assert (Hl : List.length (map RegistersResponse replies)
               = List.length (map (fun a => mkRequest HoldingRegister (0 + a) 100)
                                  (range3 0 (4500 + 1) 100))).
  { now rewrite !length_map. }
  rewrite (map_fst_combine_eq _ _ Hl). split; [vm_compute; reflexivity|].
  split; [vm_compute; reflexivity|].
  rewrite Hout. do 3 f_equal. rewrite <- map_map, (map_snd_combine_eq _ _ Hl), map_map.
  cbn [returned]. now rewrite map_id.
Qed.

(** *** get_coils, the C branch *)

Lemma relay_loop_run (q : string) (pre l : list bool) (w : World T) :
  for_ T (map (fun k => Z.of_nat (List.length pre + k)) (seq 0 (List.length l)))
       (fun e (_ : unit) =>
          bind T (getindex T (pre ++ l)%list e)
               (fun x => print T (q ++ str_int (e + 1) ++ " : " ++ str_bool x))) tt w
  = (mkWorld (client w) (stdout w ++ relay_lines q (len pre + 1) l) (trace w), Ok tt).
Proof.
  revert pre w. induction l as [|x l IH]; intros pre w.
  - cbn. unfold ret. now rewrite app_nil_r, world_eta.
  - cbn [List.length seq map for_ relay_lines].
    unfold bind at 1. unfold bind at 1. unfold getindex.
    rewrite index_of_nat, nth_error_app2 by lia.
    replace (List.length pre + 0 - List.length pre)%nat with 0%nat by lia.
    cbn [nth_error of_option]. unfold ret at 1, print at 1.
    rewrite <- seq_shift, map_map.
    replace (pre ++ x :: l)%list with ((pre ++ [x]) ++ l)%list by (now rewrite <- app_assoc).
    erewrite map_ext; [rewrite (IH (pre ++ [x])%list)|].
    + cbn [client stdout trace]. rewrite <- app_assoc. cbn [app].
      rewrite len_app. unfold len. cbn [List.length].
      replace (Z.of_nat (List.length pre + 0) + 1) with (Z.of_nat (List.length pre) + 1) by lia.
      replace (Z.of_nat (List.length pre) + Z.of_nat 1 + 1)
        with (Z.of_nat (List.length pre) + 1 + 1) by lia.
      reflexivity.
    + intros k. cbn beta. rewrite length_app. cbn [List.length]. f_equal. lia.
Qed.

(** C2 (the code departs from it). A completed C query made exactly two coil
    reads of 1000, the first at the base address 0x4000 and the second at
    address 1000, which is not the address after the first block; the bits
    of the two responses are printed in order, numbered from C1 without a
    gap. *)
Theorem C_query_second_block_at_1000 (w w' : World T) :
  get_coils T transport "C" w = (w', Ok tt) ->
  exists b1 b2 : list bool,
    trace w' = (trace w ++ [ (mkRequest Coil 0x4000 1000, BitsResponse b1);
                             (mkRequest Coil 1000 1000, BitsResponse b2) ])%list /\
    stdout w' = (stdout w ++ relay_lines "C" 1 (b1 ++ b2))%list /\
    1000 <> 0x4000 + 1000.
Proof.
  intros H. unfold get_coils, getitem in H. cbn [lookup coil_start_addrs type_ranges String.eqb Ascii.eqb Bool.eqb of_option] in H.
  repeat (rewrite bind_ret in H; cbv beta in H). cbn [snd String.eqb Ascii.eqb Bool.eqb] in H.
  apply bind_Ok_inv in H. destruct H as (w1 & r1 & Hr1 & H).
  apply bind_Ok_inv in H. destruct H as (w2 & b1 & Hb1 & H).
  apply bind_Ok_inv in H. destruct H as (w3 & r2 & Hr2 & H).
  apply bind_Ok_inv in H. destruct H as (w4 & b2 & Hb2 & H).
  unfold read_coils, call in Hr1, Hr2.
  destruct (transport (client w) (mkRequest Coil 16384 1000)) as [c1 rsp1].
  destruct rsp1; cbn in Hb1; inversion Hr1; subst; try discriminate. inversion Hb1; subst. clear Hr1 Hb1.
  cbn [client] in Hr2.
  destruct (transport c1 (mkRequest Coil 1000 1000)) as [c2 rsp2].
  destruct rsp2; cbn in Hb2; inversion Hr2; subst; try discriminate. inversion Hb2; subst. clear Hr2 Hb2.
  unfold for_each, len in H. rewrite range1_of_nat in H.
  pose proof (relay_loop_run "C" [] (b1 ++ b2)%list) as E. cbn [List.length app Nat.add] in E.
  rewrite E in H. inversion H; subst. cbn [client stdout trace].
  exists b1, b2. rewrite <- app_assoc. repeat split. lia.
Qed.

(** *** Decoding one response *)

(** An exception in one turn of a loop ends the loop there. *)
Lemma for_raised {A S : Type} (x : A) (l : list A) (body : A -> S -> M T S) (s : S)
    (w w1 : World T) (e : Exn) :
  body x s w = (w1, Raised e) -> for_ T (x :: l) body s w = (w1, Raised e).
Proof. intros H. cbn [for_]. unfold bind. now rewrite H. Qed.

(** C4 (amended). When the read of a DF value returns a single register,
    neither the functions nor the script print anything for that read: both
    raise struct.error on unpacking the two bytes, with the read logged and
    nothing decoded from the lone register, and the loop over the remaining
    values ends there. *)
Theorem DF_one_register_raises_struct_error
    (s b n x : Z) (w : World T) (c1 : T) :
  0 <= x < 65536 ->
  transport (client w) (mkRequest HoldingRegister (s + b) 2) = (c1, RegistersResponse [x]) ->
  let w1 := mkWorld c1 (stdout w)
              (trace w ++ [(mkRequest HoldingRegister (s + b) 2, RegistersResponse [x])]) in
  value_step T transport "DF" s b n w = (w1, Raised StructError) /\
  script_value_step T transport "DF" s b n w = (w1, Raised StructError) /\
  forall l : list Z,
    for_ T (b :: l) (value_step T transport "DF" s) n w = (w1, Raised StructError) /\
    for_ T (b :: l) (script_value_step T transport "DF" s) n w = (w1, Raised StructError).
Proof.
  intros Hx Ht w1. subst w1.
  assert (Hd : forall fmt, decoded fmt "DF" n [x] = ([], Raised StructError)).
  { intros fmt. unfold decoded. cbn [truthy mem existsb String.eqb Ascii.eqb Bool.eqb orb fst snd registers_bytes].
    rewrite (to_bytes2_Some x Hx). reflexivity. }
  assert (Hf : value_step T transport "DF" s b n w
               = (mkWorld c1 (stdout w)
                    (trace w ++ [(mkRequest HoldingRegister (s + b) 2, RegistersResponse [x])]),
                  Raised StructError)).
  { rewrite (value_step_run "DF" s b n 2 w c1 _ eq_refl Ht). cbn zeta.
    rewrite Hd. cbn [fst snd next]. now rewrite app_nil_r. }
  assert (Hs : script_value_step T transport "DF" s b n w
               = (mkWorld c1 (stdout w)
                    (trace w ++ [(mkRequest HoldingRegister (s + b) 2, RegistersResponse [x])]),
                  Raised StructError)).
  { rewrite (script_value_step_run "DF" s b n 2 w c1 _ eq_refl Ht). cbn zeta.
    rewrite Hd. cbn [fst snd next]. now rewrite app_nil_r. }
  split; [exact Hf|]. split; [exact Hs|].
  intros l. split; apply for_raised; assumption.
Qed.

(** C7. For DD, CTD, XD and YD, a response of two registers [hi; lo] is
    printed as the number [hi * 65536 + lo]: an unsigned 32-bit value whose
    high-order 16 bits are the first register and whose low-order 16 bits
    are the second. *)
Theorem u32_from_two_registers_big_endian
    (q : string) (s b n size hi lo : Z) (w : World T) (c1 : T) :
  In q ["DD"; "CTD"; "XD"; "YD"] ->
  lookup q reg_sizes = Some size ->
  0 <= hi < 65536 -> 0 <= lo < 65536 ->
  transport (client w) (mkRequest (value_class q) (s + b) size)
    = (c1, RegistersResponse [hi; lo]) ->
  let rn := hi * 65536 + lo in
  value_step T transport q s b n w
    = (mkWorld c1 (stdout w ++ [q ++ str_int n ++ " : " ++ str_int rn])
               (trace w ++ [(mkRequest (value_class q) (s + b) size, RegistersResponse [hi; lo])]),
       Ok (n + 1)) /\
  0 <= rn < 2 ^ 32 /\
  Z.shiftr rn 16 = hi /\
  Z.land rn (Z.ones 16) = lo.
Proof.
  intros Hq Hsize Hhi Hlo Ht rn. subst rn.
  destruct (registers_bytes_pair hi lo Hhi Hlo) as (a & Ha & Hval).
  assert (Hd : decoded fmt_4f q n [hi; lo]
               = ([q ++ str_int n ++ " : " ++ str_int (hi * 65536 + lo)], Ok tt)).
  { unfold decoded. rewrite Ha, Hval. cbn [In] in Hq.
    destruct Hq as [<-|[<-|[<-|[<-|[]]]]]; reflexivity. }
  split.
  - rewrite (value_step_run q s b n size w c1 _ Hsize Ht). cbn zeta.
    rewrite Hd. reflexivity.
  - split; [lia|]. split.
    + rewrite Z.shiftr_div_pow2 by lia. change (2 ^ 16) with 65536.
      rewrite Z.div_add_l by lia. rewrite Z.div_small by lia. lia.
    + rewrite Z.land_ones by lia. change (2 ^ 16) with 65536.
      rewrite Z.add_comm, Z.mod_add by lia. apply Z.mod_small. lia.
Qed.

(** C8. A DF response of the registers [0x4049; 0x0fdb] unpacks to the float
    13176795 * 2^-22, which lies within 1e-4 of 3.14159, and is printed to
    four decimals as 3.1416. *)
Theorem DF_decodes_pi (s b n : Z) (w : World T) (c1 : T) :
  transport (client w) (mkRequest HoldingRegister (s + b) 2)
    = (c1, RegistersResponse [0x4049; 0x0fdb]) ->
  exists (a : list Z) (fn : spec_float) (v : Q),
    registers_bytes [0x4049; 0x0fdb] = Some a /\
    unpack_f a = Some fn /\
    Q_of_float fn = Some v /\
    (Qabs (v - (314159 # 100000)) < (1 # 10000))%Q /\
    value_step T transport "DF" s b n w
      = (mkWorld c1 (stdout w ++ ["DF" ++ str_int n ++ " : " ++ fmt_4f fn])
                 (trace w ++ [(mkRequest HoldingRegister (s + b) 2,
                               RegistersResponse [0x4049; 0x0fdb])]),
         Ok (n + 1)) /\
    fmt_4f fn = "3.1416".
Proof.
  intros Ht.
  exists [0x40; 0x49; 0x0f; 0xdb], (S754_finite false 13176795 (-22)), (13176795 # 4194304)%Q.
  split; [reflexivity|]. split; [reflexivity|]. split; [reflexivity|].
  split; [vm_compute; reflexivity|]. split; [|vm_compute; reflexivity].
  rewrite (value_step_run "DF" s b n 2 w c1 _ eq_refl Ht). reflexivity.
Qed.

(** *** Symbols outside the tables *)

(** C5 (amended). For a symbol in neither address table the script does
    nothing at all and ends normally; [main] does nothing beyond connecting,
    and ends normally when the connection succeeds. No read is made, no line
    is printed and no error about the symbol is raised. *)
Theorem unknown_symbol_is_silently_ignored (q : string) (w : World T) :
  ~ In q coil_keys -> ~ In q reg_keys ->
  script T transport q w = (w, Ok tt) /\
  forall g : option string,
    main T transport connect (Some q) g w
    = (mkWorld (fst (connect (client w))) (stdout w) (trace w),
       if snd (connect (client w)) then Ok tt else Raised NameError).
Proof.
  intros Hc Hr.
  assert (Ec : mem q coil_keys = false).
  { destruct (mem q coil_keys) eqn:E; [|reflexivity]. apply mem_true_iff in E. contradiction. }
  assert (Er : mem q reg_keys = false).
  { destruct (mem q reg_keys) eqn:E; [|reflexivity]. apply mem_true_iff in E. contradiction. }
  split.
  - unfold script. rewrite Ec, Er. reflexivity.
  - intros g. unfold main, try_except, client_connect. rewrite Ec, Er.
    unfold bind at 1. destruct (connect (client w)) as [c' ok]. cbn [fst snd].
    destruct ok; reflexivity.
Qed.

(** *** The functions against the script *)

Lemma bind_ext {A B : Type} (m : M T A) (k k' : A -> M T B) (w : World T) :
  (forall a w1, k a w1 = k' a w1) -> bind T m k w = bind T m k' w.
Proof.
  intros H. unfold bind. destruct (m w) as [w1 [a|e|]]; [apply H | reflexivity | reflexivity].
Qed.

Lemma bind_ret_unit (m : M T unit) (w : World T) :
  bind T m (fun _ => ret T tt) w = m w.
Proof.
  unfold bind, ret. destruct (m w) as [w1 [[]|e|]]; reflexivity.
Qed.

Lemma for_ext {A S : Type} (l : list A) (f g : A -> S -> M T S) (s : S) (w : World T) :
  (forall x s' w', f x s' w' = g x s' w') -> for_ T l f s w = for_ T l g s w.
Proof.
  intros H. revert s w. induction l as [|x l IH]; intros s w; cbn [for_]; [reflexivity|].
  unfold bind. rewrite H. destruct (g x s w) as [w1 [s1|e|]]; [apply IH | reflexivity | reflexivity].
Qed.

Lemma script_on_coil_key (q : string) (w : World T) :
  mem q coil_keys = true -> mem q reg_keys = false ->
  script T transport q w = script_coils T transport q w.
Proof.
  intros Hc Hr. unfold script. rewrite Hc, Hr. cbn [when]. apply bind_ret_unit.
Qed.

Lemma script_on_reg_key (q : string) (w : World T) :
  mem q coil_keys = false -> mem q reg_keys = true ->
  script T transport q w = script_registers T transport q w.
Proof.
  intros Hc Hr. unfold script. rewrite Hc, Hr. reflexivity.
Qed.

Lemma block_loop_script (fuel : nat) (q : string) (s c cur n : Z) (w : World T) :
  block_loop T transport fuel q s c 100 cur n w
  = script_block_loop T transport fuel q s c 100 cur n w.
Proof.
  revert cur n w. induction fuel as [|fuel IH]; intros cur n w;
    cbn [block_loop script_block_loop]; destruct (cur <=? c); try reflexivity.
  apply bind_ext. intros r w1. apply bind_ext. intros regs w2.
  apply bind_ext. intros n' w3. apply IH.
Qed.

Lemma decoded_fmt_irrelevant (f g : spec_float -> string) (q : string) (n : Z) (regs : list Z) :
  (q =? "DF")%string = false -> decoded f q n regs = decoded g q n regs.
Proof. intros H. unfold decoded. now rewrite H. Qed.

Lemma value_step_script (q : string) (s size b n : Z) (w : World T) :
  lookup q reg_sizes = Some size -> (q =? "DF")%string = false ->
  value_step T transport q s b n w = script_value_step T transport q s b n w.
Proof.
  intros Hsize Hdf.
  destruct (transport (client w) (mkRequest (value_class q) (s + b) size)) as [c1 rsp] eqn:Et.
  rewrite (value_step_run q s b n size w c1 rsp Hsize Et).
  rewrite (script_value_step_run q s b n size w c1 rsp Hsize Et).
  destruct rsp as [bl|regs| |]; cbn zeta; try reflexivity.
  now rewrite (decoded_fmt_irrelevant fmt_4f fmt_pct04f q n regs Hdf).
Qed.

Lemma script_registers_block (q : string) (s lo hi : Z) (w : World T) :
  lookup q reg_start_addrs = Some s ->
  lookup q type_ranges = Some (lo, hi) ->
  mem q ["DS"; "TD"; "SD"; "DH"; "TXT"] = true ->
  script_registers T transport q w
  = script_block_loop T transport (Z.to_nat (hi + 1 - 0)) q s hi 100 0 lo w.
Proof.
  intros Hs Hr Hm. unfold script_registers, getitem. rewrite Hs, Hr, Hm.
  reflexivity.
Qed.

Lemma script_registers_values (q : string) (s lo hi size : Z) (w : World T) :
  lookup q reg_start_addrs = Some s ->
  lookup q type_ranges = Some (lo, hi) ->
  lookup q reg_sizes = Some size ->
  mem q ["DS"; "TD"; "SD"; "DH"; "TXT"] = false ->
  size <> 0 ->
  script_registers T transport q w
  = bind T (for_ T (range3 lo (hi + 1) size) (script_value_step T transport q s) lo)
         (fun _ => ret T tt) w.
Proof.
  intros Hs Hr Hsize Hm Hnz. unfold script_registers, getitem. rewrite Hs, Hr, Hsize, Hm.
  cbn [of_option]. repeat (rewrite bind_ret; cbv beta).
  apply Z.eqb_neq in Hnz. rewrite Hnz. reflexivity.
Qed.

(** For every register type but DF the two copies are the same function. *)
Lemma registers_same_but_DF (q : string) (w : World T) :
  In q reg_keys -> q <> "DF" ->
  get_registers T transport q w = script T transport q w.
Proof.
  intros Hq Hdf. cbn in Hq.
  destruct Hq as [<-|[<-|[<-|[<-|[<-|[<-|[<-|[<-|[<-|[<-|[]]]]]]]]]]];
    try congruence; rewrite script_on_reg_key by reflexivity.
  all: first
    [ erewrite get_registers_block, script_registers_block by reflexivity;
      apply block_loop_script
    | erewrite get_registers_values, script_registers_values by (reflexivity || discriminate);
      unfold bind; erewrite for_ext;
      [reflexivity | intros; apply value_step_script with (size := 2); reflexivity] ].
Qed.


Lemma script_coil_step_same (q : string) (r : Response) (b : Z) :
  script_coil_step T q r b = coil_step T q r b.
Proof. reflexivity. Qed.

(** The loop over the bits of a non-C coil type, on a response with bits. *)
Lemma coil_loop_run (q : string) (c0 : ascii) (bs : list bool) (l : list Z) (w : World T) :
  String.get 0 q = Some c0 ->
  for_each T l (coil_step T q (BitsResponse bs)) w
  = (mkWorld (client w) (stdout w ++ fst (coil_lines q c0 bs l)) (trace w),
     snd (coil_lines q c0 bs l)).
Proof.
  intros Hc. unfold for_each. revert w.
  induction l as [|b l IH]; intros w; cbn [for_ coil_lines].
  - cbn. unfold ret. now rewrite app_nil_r, world_eta.
  - unfold bind at 1. unfold coil_step at 1, first_char. rewrite Hc. cbn [of_option].
    rewrite bind_ret. cbv beta. unfold coil_label.
    destruct (Ascii.eqb c0 "X" || Ascii.eqb c0 "Y");
      cbn [bits_of]; rewrite bind_ret; cbv beta; unfold getindex;
      destruct (index bs b) as [x|]; cbn [of_option fst snd];
      try (unfold bind, raise; now rewrite app_nil_r, world_eta);
      rewrite bind_ret; cbv beta; unfold print at 1; rewrite IH;
      cbn [client stdout trace]; rewrite <- app_assoc; reflexivity.
Qed.

(** The same loop on a response without bits stops at its first turn. *)
Lemma coil_loop_no_bits (q : string) (c0 : ascii) (r : Response) (b : Z) (l : list Z)
    (w : World T) :
  String.get 0 q = Some c0 ->
  (forall bs, r <> BitsResponse bs) ->
  for_each T (b :: l) (coil_step T q r) w = (w, Raised AttributeError).
Proof.
  intros Hc Hr. unfold for_each. cbn [for_]. unfold bind at 1.
  unfold coil_step, first_char. rewrite Hc. cbn [of_option]. rewrite bind_ret. cbv beta.
  destruct r as [bs| | |]; [exfalso; now apply (Hr bs) | | |];
    destruct (Ascii.eqb c0 "X" || Ascii.eqb c0 "Y"); reflexivity.
Qed.

Lemma get_coils_unfold (q : string) (s lo cnt : Z) (c0 : ascii) (w : World T) :
  lookup q coil_start_addrs = Some s ->
  lookup q type_ranges = Some (lo, cnt) ->
  (q =? "C")%string = false ->
  String.get 0 q = Some c0 ->
  get_coils T transport q w
  = bind T (call T transport (mkRequest (if Ascii.eqb c0 "X" then DiscreteInput else Coil) s cnt))
         (fun r => for_each T (range1 cnt) (coil_step T q r)) w.
Proof.
  intros Hs Hr Hc Hc0. unfold get_coils, getitem. rewrite Hs, Hr, Hc.
  cbn [of_option]. repeat (rewrite bind_ret; cbv beta). cbn [snd].
  unfold first_char at 1. rewrite Hc0. cbn [of_option]. rewrite bind_ret. cbv beta.
  destruct (Ascii.eqb c0 "X"); reflexivity.
Qed.

Lemma script_coils_unfold (q : string) (s lo cnt : Z) (c0 : ascii) (w : World T) :
  lookup q coil_start_addrs = Some s ->
  lookup q type_ranges = Some (lo, cnt) ->
  (q =? "C")%string = false ->
  String.get 0 q = Some c0 ->
  script_coils T transport q w
  = bind T (call T transport (mkRequest (if Ascii.eqb c0 "X" then DiscreteInput else Coil) s cnt))
         (fun r => for_each T (range2 1 cnt) (coil_step T q r)) w.
Proof.
  intros Hs Hr Hc Hc0. unfold script_coils, getitem. rewrite Hs, Hr, Hc.
  cbn [of_option]. repeat (rewrite bind_ret; cbv beta). cbn [snd].
  unfold first_char at 1. rewrite Hc0. cbn [of_option]. rewrite bind_ret. cbv beta.
  destruct (Ascii.eqb c0 "X"); reflexivity.
Qed.

(** On a non-C coil type the function goes over [range(count)] and the
    script over [range(1, count)]: with [bs] the bits of the answer to the
    one read, the script prints the lines of the bits 1 to [count - 1] that
    came, and the function prints before them the line of bit 0 when the
    answer has one. *)
Lemma coils_function_against_script (q : string) (s lo cnt : Z) (c0 : ascii) (w : World T) :
  lookup q coil_start_addrs = Some s ->
  lookup q type_ranges = Some (lo, cnt) ->
  (q =? "C")%string = false ->
  String.get 0 q = Some c0 ->
  2 <= cnt ->
  let rq := mkRequest (coil_class c0) s cnt in
  let bs := returned_bits (snd (transport (client w) rq)) in
  let bit0 := match bs with
              | x :: _ => [q ++ coil_label c0 0 ++ " : " ++ str_bool x]
              | [] => []
              end in
  let rest := bit_lines q c0 1 (firstn (Z.to_nat (cnt - 1)) (tl bs)) in
  stdout (fst (get_coils T transport q w)) = (stdout w ++ bit0 ++ rest)%list /\
  stdout (fst (script_coils T transport q w)) = (stdout w ++ rest)%list /\
  client (fst (get_coils T transport q w)) = client (fst (script_coils T transport q w)) /\
  trace (fst (get_coils T transport q w)) = trace (fst (script_coils T transport q w)) /\
  snd (get_coils T transport q w) = snd (script_coils T transport q w).
Proof.
  intros Hs Hr Hc Hc0 Hcnt. cbv zeta. unfold coil_class.
  rewrite (get_coils_unfold q s lo cnt c0 w Hs Hr Hc Hc0).
  rewrite (script_coils_unfold q s lo cnt c0 w Hs Hr Hc Hc0).
  unfold range1. rewrite (range3_cons 0 cnt 1) by lia. cbn [Z.add].
  change (range3 1 cnt 1) with (range2 1 cnt).
  unfold bind, call.
  destruct (transport (client w) _) as [c1 rsp].
  cbn [snd]. destruct rsp as [bs|regs| |]; cbn [returned_bits tl firstn bit_lines app].
  - rewrite !(coil_loop_run q c0 bs _ _ Hc0). cbn [client stdout trace fst snd coil_lines].
    destruct bs as [|x bs]; cbn [tl].
    + unfold range2. rewrite (range3_cons 1 cnt 1) by lia.
      rewrite firstn_nil. cbn [coil_lines bit_lines app].
      change (index (@nil bool) 0) with (@None bool).
      change (index (@nil bool) 1) with (@None bool).
      cbn [fst snd]. rewrite app_nil_r. auto.
    + change (index (x :: bs) 0) with (Some x). cbn [fst snd].
      rewrite (range2_from_1 cnt) by lia.
      pose proof (coil_lines_bits q c0 [x] bs (Z.to_nat (cnt - 1))) as E.
      cbn [app List.length] in E. change (len [x]) with 1 in E.
      rewrite E. cbn [fst snd app]. auto.
  - rewrite (coil_loop_no_bits q c0 _ _ _ _ Hc0) by discriminate.
    unfold range2. rewrite (range3_cons 1 cnt 1) by lia.
    rewrite (coil_loop_no_bits q c0 _ _ _ _ Hc0) by discriminate.
    rewrite firstn_nil. cbn. rewrite app_nil_r. auto.
  - rewrite (coil_loop_no_bits q c0 _ _ _ _ Hc0) by discriminate.
    unfold range2. rewrite (range3_cons 1 cnt 1) by lia.
    rewrite (coil_loop_no_bits q c0 _ _ _ _ Hc0) by discriminate.
    rewrite firstn_nil. cbn. rewrite app_nil_r. auto.
  - rewrite firstn_nil. cbn. rewrite app_nil_r. auto.
Qed.

(** What a DF turn decodes does not depend on the float format; only the
    text of its line does. *)
Lemma decoded_DF (n : Z) (regs : list Z) :
  exists (xs : list spec_float) (r : Res unit),
    forall fmt, decoded fmt "DF" n regs = (map (fun x => float_line fmt (n, x)) xs, r).
Proof.
  unfold decoded. destruct (truthy regs); [|exists [], (Ok tt); reflexivity].
  cbn [mem existsb String.eqb Ascii.eqb Bool.eqb orb fst snd].
  destruct (registers_bytes regs) as [a|]; [|exists [], (Raised OverflowError); reflexivity].
  destruct (unpack_f a) as [fn|]; [|exists [], (Raised StructError); reflexivity].
  exists [fn], (Ok tt). reflexivity.
Qed.

(** The two per-value loops on DF, run side by side from worlds with the
    same client and log, make the same reads and end alike; they print the
    same values under the same counters, to four decimals in the functions
    and in the ['%04f'] format in the script. *)
Lemma DF_loops_related (s : Z) (l : list Z) (n : Z) (wf ws : World T) :
  client wf = client ws -> trace wf = trace ws ->
  exists vals : list (Z * spec_float),
    stdout (fst (for_ T l (value_step T transport "DF" s) n wf))
      = (stdout wf ++ map (float_line fmt_4f) vals)%list /\
    stdout (fst (for_ T l (script_value_step T transport "DF" s) n ws))
      = (stdout ws ++ map (float_line fmt_pct04f) vals)%list /\
    client (fst (for_ T l (value_step T transport "DF" s) n wf))
      = client (fst (for_ T l (script_value_step T transport "DF" s) n ws)) /\
    trace (fst (for_ T l (value_step T transport "DF" s) n wf))
      = trace (fst (for_ T l (script_value_step T transport "DF" s) n ws)) /\
    snd (for_ T l (value_step T transport "DF" s) n wf)
      = snd (for_ T l (script_value_step T transport "DF" s) n ws).
Proof.
  revert n wf ws. induction l as [|b l IH]; intros n wf ws Hc Ht; cbn [for_].
  - exists []. cbn. rewrite !app_nil_r. auto.
  - unfold bind.
    destruct (transport (client wf) (mkRequest (value_class "DF") (s + b) 2)) as [c1 rsp] eqn:Et.
    rewrite (value_step_run "DF" s b n 2 wf c1 rsp eq_refl Et).
    rewrite Hc in Et.
    rewrite (script_value_step_run "DF" s b n 2 ws c1 rsp eq_refl Et). cbn zeta.
    destruct rsp as [bl|regs| |];
      try solve [exists []; cbn; rewrite !app_nil_r, Ht; auto 6].
    destruct (decoded_DF n regs) as (xs & r & Hd). rewrite !Hd. cbn [fst snd].
    destruct r as [[]|e|]; cbn [next].
    + destruct (IH (n + 1)
                  (mkWorld c1 (stdout wf ++ map (fun x => float_line fmt_4f (n, x)) xs)
                           (trace wf ++ [(mkRequest (value_class "DF") (s + b) 2, RegistersResponse regs)]))
                  (mkWorld c1 (stdout ws ++ map (fun x => float_line fmt_pct04f (n, x)) xs)
                           (trace ws ++ [(mkRequest (value_class "DF") (s + b) 2, RegistersResponse regs)]))
                  eq_refl ltac:(cbn; now rewrite Ht))
        as (vals & Hf & Hs & Hcl & Htr & Hres).
      exists (List.app (map (pair n) xs) vals).
      rewrite Hf, Hs. cbn [stdout]. rewrite !map_app, !map_map, <- !app_assoc. auto.
    + exists (map (pair n) xs). cbn. rewrite !map_map, Ht. auto 6.
    + exists (map (pair n) xs). cbn. rewrite !map_map, Ht. auto 6.
Qed.

Lemma DF_function_against_script (w : World T) :
  exists vals : list (Z * spec_float),
    stdout (fst (get_registers T transport "DF" w))
      = (stdout w ++ map (float_line fmt_4f) vals)%list /\
    stdout (fst (script T transport "DF" w))
      = (stdout w ++ map (float_line fmt_pct04f) vals)%list /\
    client (fst (get_registers T transport "DF" w)) = client (fst (script T transport "DF" w)) /\
    trace (fst (get_registers T transport "DF" w)) = trace (fst (script T transport "DF" w)) /\
    snd (get_registers T transport "DF" w) = snd (script T transport "DF" w).
Proof.
  rewrite script_on_reg_key by reflexivity.
  rewrite (get_registers_values "DF" 0x7000 1 500 2 w eq_refl eq_refl eq_refl eq_refl ltac:(lia)).
  rewrite (script_registers_values "DF" 0x7000 1 500 2 w eq_refl eq_refl eq_refl eq_refl ltac:(lia)).
  destruct (DF_loops_related 0x7000 (range3 1 (500 + 1) 2) 1 w w eq_refl eq_refl)
    as (vals & Hf & Hs & Hc & Ht & Hr).
  exists vals. unfold bind, ret.
  destruct (for_ T (range3 1 (500 + 1) 2) (value_step T transport "DF" 28672) 1 w)
    as [w1 [n1|e1|]];
    destruct (for_ T (range3 1 (500 + 1) 2) (script_value_step T transport "DF" 28672) 1 w)
      as [w2 [n2|e2|]];
    cbn [fst snd] in *; try discriminate; repeat split; try assumption;
    inversion Hr; reflexivity.
Qed.

(** C9 (amended). The functions and the script make the same reads, leave
    the client in the same state and end alike for every symbol of the
    tables. They print the same lines for C and for every register type but
    DF. For the other coil types, with [bs] the bits of the answer to the
    one read, the script prints the lines of the bits 1 to [count - 1] that
    came, and the function prints the line of bit 0, under label 0, whenever
    the answer has a bit, and then those same lines. For DF both
    print the same values under the same counters, the function to four
    decimals and the script in the ['%04f'] format. *)
Theorem function_and_script_outputs (q : string) (w : World T) :
  (q = "C" -> get_coils T transport q w = script T transport q w) /\
  (In q reg_keys -> q <> "DF" -> get_registers T transport q w = script T transport q w) /\
  (In q coil_keys -> q <> "C" ->
   exists (c0 : ascii) (s lo cnt : Z),
     String.get 0 q = Some c0 /\
     lookup q coil_start_addrs = Some s /\
     lookup q type_ranges = Some (lo, cnt) /\
     let rq := mkRequest (coil_class c0) s cnt in
     let bs := returned_bits (snd (transport (client w) rq)) in
     let bit0 := match bs with
                 | x :: _ => [q ++ coil_label c0 0 ++ " : " ++ str_bool x]
                 | [] => []
                 end in
     let rest := bit_lines q c0 1 (firstn (Z.to_nat (cnt - 1)) (tl bs)) in
     stdout (fst (get_coils T transport q w)) = (stdout w ++ bit0 ++ rest)%list /\
     stdout (fst (script T transport q w)) = (stdout w ++ rest)%list /\
     client (fst (get_coils T transport q w)) = client (fst (script T transport q w)) /\
     trace (fst (get_coils T transport q w)) = trace (fst (script T transport q w)) /\
     snd (get_coils T transport q w) = snd (script T transport q w)) /\
  (q = "DF" ->
   exists vals : list (Z * spec_float),
     stdout (fst (get_registers T transport q w))
       = (stdout w ++ map (float_line fmt_4f) vals)%list /\
     stdout (fst (script T transport q w))
       = (stdout w ++ map (float_line fmt_pct04f) vals)%list /\
     client (fst (get_registers T transport q w)) = client (fst (script T transport q w)) /\
     trace (fst (get_registers T transport q w)) = trace (fst (script T transport q w)) /\
     snd (get_registers T transport q w) = snd (script T transport q w)).
Proof.
  split; [|split; [|split]].
  - intros ->. rewrite script_on_coil_key by reflexivity. reflexivity.
  - apply registers_same_but_DF.
  - intros Hq Hc. cbn in Hq.
    repeat (destruct Hq as [<-|Hq]; [try congruence|]); [..|contradiction].
    all: rewrite script_on_coil_key by reflexivity.
    all: match goal with
         | |- context [get_coils _ _ ?q ?w0] =>
             let c := eval vm_compute in (String.get 0 q) in
             let s := eval vm_compute in (lookup q coil_start_addrs) in
             let r := eval vm_compute in (lookup q type_ranges) in
             match c with
             | Some ?c0 =>
                 match s with
                 | Some ?s0 =>
                     match r with
                     | Some (?lo, ?cnt) =>
                         exists c0, s0, lo, cnt;
                         split; [reflexivity|]; split; [reflexivity|];
                         split; [reflexivity|];
                         exact (coils_function_against_script q s0 lo cnt c0 w0
                                  eq_refl eq_refl eq_refl eq_refl ltac:(lia))
                     end
                 end
             end
         end.
  - intros ->. apply DF_function_against_script.
Qed.
(** C10 (amended). For the block types DS, TD, SD, DH and TXT, in the
    function and in the script alike and however the query ends, the lines
    printed are those of the registers the reads returned, in order: the
    register at position [p] of the [j]-th response is printed under the
    label [instanceRange.min + (registers returned by the earlier requests)
    + p], whatever address it was read from.  The reads are the blocks of
    the plan, the [j]-th at [start + 100 * j], and at least one is made.
    When no response is longer than requested and an earlier one was empty,
    the label is lower than the instance stored at the address the register
    came from. *)
Theorem block_label_counts_returned_registers
    (q : string) (s lo hi : Z) (w : World T) :
  In q ["DS"; "TD"; "SD"; "DH"; "TXT"] ->
  lookup q reg_start_addrs = Some s ->
  lookup q type_ranges = Some (lo, hi) ->
  script T transport q w = get_registers T transport q w /\
  exists tr : list (Request * Response),
    trace (fst (get_registers T transport q w)) = (trace w ++ tr)%list /\
    tr <> [] /\
    (exists k, map fst tr = firstn k (register_plan q)) /\
    (snd (get_registers T transport q w) = Ok tt -> map fst tr = register_plan q) /\
    stdout (fst (get_registers T transport q w))
      = (stdout w ++ block_lines q lo (List.concat (map (fun x => returned (snd x)) tr)))%list /\
    forall (j : nat) (rq : Request) (regs : list Z) (p : nat) (br : Z),
      nth_error tr j = Some (rq, RegistersResponse regs) ->
      nth_error regs p = Some br ->
      let label := lo + returned_before tr j + Z.of_nat p in
      nth_error (stdout (fst (get_registers T transport q w)))
                (List.length (stdout w) + Z.to_nat (returned_before tr j) + p)
        = Some (block_line q label br) /\
      address rq = s + 100 * Z.of_nat j /\
      ((forall i rq' rsp', nth_error tr i = Some (rq', rsp') ->
                           len (returned rsp') <= count rq') ->
       (exists i rq', (i < j)%nat /\ nth_error tr i = Some (rq', RegistersResponse [])) ->
       label < spec_instance_at s lo (address rq + Z.of_nat p)).
Proof.
  intros Hq Hs Hr.
  assert (Hreg : In q reg_keys /\ q <> "DF" /\ 0 <= hi /\
                 exists size, lookup q reg_sizes = Some size).
  { cbn in Hq.
    destruct Hq as [<-|[<-|[<-|[<-|[<-|[]]]]]]; vm_compute in Hr; inversion Hr; subst;
      (split; [cbn; tauto | split; [discriminate | split; [lia | eexists; reflexivity]]]). }
  destruct Hreg as (Hk & Hdf & Hhi & size & Hsize).
  split; [symmetry; now apply registers_same_but_DF|].
  apply mem_true_iff in Hq.
  rewrite (register_plan_block q s lo hi size Hs Hr Hsize Hq).
  exact (get_registers_block_run q s lo hi w Hq Hs Hr Hhi).
Qed.

End Facts.

(** ** The statements at concrete clients *)

Lemma not_In_of_mem (x : string) (l : list string) : mem x l = false -> ~ In x l.
Proof.
  intros H Hin. apply mem_true_iff in Hin. rewrite Hin in H. discriminate.
Qed.

(** A TD query whose first block comes back empty: the register read at
    0xB064, where TD101 is stored, is printed as TD1. *)
Example TD_value_under_lower_label :
  stdout (fst (get_registers _ scripted_transport "TD" (start TD_replies))) = ["TD1 : 7"]
  /\ spec_instance_at 0xB000 1 0xB064 = 101.
Proof. split; vm_compute; reflexivity. Qed.

Lemma block_label_counts_returned_registers_witness :
  script _ scripted_transport "TD" (start TD_replies)
    = get_registers _ scripted_transport "TD" (start TD_replies) /\
  exists tr : list (Request * Response),
    trace (fst (get_registers _ scripted_transport "TD" (start TD_replies)))
      = (trace (start TD_replies) ++ tr)%list /\
    tr <> [] /\
    (exists k, map fst tr = firstn k (register_plan "TD")) /\
    (snd (get_registers _ scripted_transport "TD" (start TD_replies)) = Ok tt ->
     map fst tr = register_plan "TD") /\
    stdout (fst (get_registers _ scripted_transport "TD" (start TD_replies)))
      = (stdout (start TD_replies)
         ++ block_lines "TD" 1 (List.concat (map (fun x => returned (snd x)) tr)))%list /\
    forall (j : nat) (rq : Request) (regs : list Z) (p : nat) (br : Z),
      nth_error tr j = Some (rq, RegistersResponse regs) ->
      nth_error regs p = Some br ->
      let label := 1 + returned_before tr j + Z.of_nat p in
      nth_error (stdout (fst (get_registers _ scripted_transport "TD" (start TD_replies))))
                (List.length (stdout (start TD_replies)) + Z.to_nat (returned_before tr j) + p)
        = Some (block_line "TD" label br) /\
      address rq = 0xB000 + 100 * Z.of_nat j /\
      ((forall i rq' rsp', nth_error tr i = Some (rq', rsp') ->
                           len (returned rsp') <= count rq') ->
       (exists i rq', (i < j)%nat /\ nth_error tr i = Some (rq', RegistersResponse [])) ->
       label < spec_instance_at 0xB000 1 (address rq + Z.of_nat p)).
Proof.
  apply (block_label_counts_returned_registers _ scripted_transport "TD" 0xB000 1 500
           (start TD_replies)).
  - right. left. reflexivity.
  - reflexivity.
  - reflexivity.
Defined.

(** Against C10 as stated: after an empty first block and four answers of
    125 registers, the register read at 0xB000 + 500, where TD501 is stored,
    is printed as TD501.  An earlier read returned nothing, and yet the
    label is not lower than the instance. *)
Lemma TD_long_answers_reach_the_true_label :
  nth_error (trace (fst (get_registers _ scripted_transport "TD" (start TD_long_replies)))) 0
    = Some (mkRequest HoldingRegister 0xB000 100, RegistersResponse []) /\
  nth_error (trace (fst (get_registers _ scripted_transport "TD" (start TD_long_replies)))) 5
    = Some (mkRequest HoldingRegister (0xB000 + 500) 100, RegistersResponse [9]) /\
  returned_before
    (trace (fst (get_registers _ scripted_transport "TD" (start TD_long_replies)))) 5 = 500 /\
  nth_error (stdout (fst (get_registers _ scripted_transport "TD" (start TD_long_replies)))) 500
    = Some "TD501 : 9" /\
  spec_instance_at 0xB000 1 (0xB000 + 500) = 501 /\
  ~ (1 + returned_before
           (trace (fst (get_registers _ scripted_transport "TD" (start TD_long_replies)))) 5
       + 0
     < spec_instance_at 0xB000 1 (0xB000 + 500 + 0)).
Proof.
  split; [vm_compute; reflexivity|].
  split; [vm_compute; reflexivity|].
  split; [vm_compute; reflexivity|].
  split; [vm_compute; reflexivity|].
  split; [vm_compute; reflexivity|].
  vm_compute. discriminate.
Qed.

(** A TD query cut short by an exception response at its second read keeps
    the line of the first and ends in AttributeError. *)
Example TD_query_cut_short :
  get_registers _ scripted_transport "TD" (start [RegistersResponse [7]; ExceptionResponse])
  = (mkWorld [] ["TD1 : 7"]
             [(mkRequest HoldingRegister 0xB000 100, RegistersResponse [7]);
              (mkRequest HoldingRegister (0xB000 + 100) 100, ExceptionResponse)],
     Raised AttributeError).
Proof. vm_compute. reflexivity. Qed.

Lemma value_read_starts_at_base_plus_min_witness :
  exists (tr : list (Request * Response)) (outs : list (list string)),
    trace (fst (get_registers _ scripted_transport "DD" (start DD_replies)))
      = (trace (start DD_replies) ++ tr)%list /\
    stdout (fst (get_registers _ scripted_transport "DD" (start DD_replies)))
      = (stdout (start DD_replies) ++ List.concat outs)%list /\
    List.length outs = List.length tr /\
    forall (k : nat) (rq : Request) (rsp : Response) (ls : list string),
      nth_error tr k = Some (rq, rsp) ->
      nth_error outs k = Some ls ->
      (ls = [] \/ exists v, ls = ["DD" ++ str_int (1 + Z.of_nat k) ++ " : " ++ v]) /\
      address rq = 0x4000 + 1 + Z.of_nat k * 2 /\
      address rq = spec_resolve 0x4000 1 2 (1 + Z.of_nat k) + 1.
Proof.
  apply (value_read_starts_at_base_plus_min _ scripted_transport "DD" 0x4000 1 1000 2
           (start DD_replies)
           (fst (get_registers _ scripted_transport "DD" (start DD_replies)))).
  - left. reflexivity.
  - reflexivity.
  - reflexivity.
  - reflexivity.
  - vm_compute. reflexivity.
Defined.

(** The first DD read starts one register after the base address. *)
Example DD_first_read_address :
  nth_error (requests (fst (get_registers _ scripted_transport "DD" (start DD_replies)))) 0
    = Some (mkRequest HoldingRegister 0x4001 2)
  /\ nth_error (stdout (fst (get_registers _ scripted_transport "DD" (start DD_replies)))) 0
    = Some "DD1 : 7"
  /\ spec_resolve 0x4000 1 2 1 = 0x4000.
Proof. split; [|split]; vm_compute; reflexivity. Qed.

Lemma DD_requests_leave_instances_unread_witness :
  exists tr : list (Request * Response),
    trace (fst (get_registers _ scripted_transport "DD" (start DD_replies)))
      = (trace (start DD_replies) ++ tr)%list /\
    List.length tr = 500%nat /\
    coverage (map fst tr) (spec_resolve 0x4000 1 2 1) = 0%nat /\
    forall i, 502 <= i <= 1000 ->
      coverage (map fst tr) (spec_resolve 0x4000 1 2 i) = 0%nat /\
      coverage (map fst tr) (spec_resolve 0x4000 1 2 i + 1) = 0%nat.
Proof.
  apply (DD_requests_leave_instances_unread _ scripted_transport (start DD_replies)
           (fst (get_registers _ scripted_transport "DD" (start DD_replies)))).
  vm_compute. reflexivity.
Defined.

Lemma DS_query_reads_46_blocks_witness :
  exists tr : list (Request * Response),
    trace (fst (get_registers _ scripted_transport "DS" (start DS_replies)))
      = (trace (start DS_replies) ++ tr)%list /\
    map fst tr = map (fun k => mkRequest HoldingRegister (0x0000 + 100 * Z.of_nat k) 100)
                     (seq 0 46) /\
    nth_error (map fst tr) 45 = Some (mkRequest HoldingRegister (0x0000 + 4500) 100) /\
    stdout (fst (get_registers _ scripted_transport "DS" (start DS_replies)))
      = (stdout (start DS_replies) ++
         block_lines "DS" 1 (List.concat (map (fun x => returned (snd x)) tr)))%list.
Proof.
  apply (DS_query_reads_46_blocks _ scripted_transport (start DS_replies)
           (fst (get_registers _ scripted_transport "DS" (start DS_replies)))).
  vm_compute. reflexivity.
Defined.

(** The 46th DS read starts at offset 4500, past DS4500 at offset 4499, and
    what it returns is printed like the rest. *)
Example DS_last_block_is_printed :
  let w' := fst (get_registers _ scripted_transport "DS" (start DS_replies)) in
  nth_error (requests w') 45 = Some (mkRequest HoldingRegister 4500 100) /\
  nth_error (stdout w') 45 = Some "DS46 : 7" /\
  spec_resolve 0x0000 1 1 4500 = 4499.
Proof. cbv zeta. split; [|split]; vm_compute; reflexivity. Qed.

(** Against a PLC that answers every read in full, a block query prints one
    block more than the range holds: for TD (range 1..500) 600 lines, TD1 to
    TD600, where one read of the 500 registers of the range decodes to 500. *)
Example TD_prints_a_block_past_the_range :
  let regs := fun a => a mod 65536 in
  let w' := fst (get_registers unit (plc_transport (fun _ => false) regs) "TD" (start tt)) in
  List.length (stdout w') = 600%nat /\
  List.length (block_lines "TD" 1 (map regs (range3 0xB000 (0xB000 + 500) 1))) = 500%nat /\
  firstn 500 (stdout w') = block_lines "TD" 1 (map regs (range3 0xB000 (0xB000 + 500) 1)).
Proof. cbv zeta. split; [|split]; vm_compute; reflexivity. Qed.

Lemma C_query_second_block_at_1000_witness :
  exists b1 b2 : list bool,
    trace (fst (get_coils _ scripted_transport "C" (start C_replies)))
      = (trace (start C_replies) ++
         [ (mkRequest Coil 0x4000 1000, BitsResponse b1);
           (mkRequest Coil 1000 1000, BitsResponse b2) ])%list /\
    stdout (fst (get_coils _ scripted_transport "C" (start C_replies)))
      = (stdout (start C_replies) ++ relay_lines "C" 1 (b1 ++ b2))%list /\
    1000 <> 0x4000 + 1000.
Proof.
  apply (C_query_second_block_at_1000 _ scripted_transport (start C_replies)
           (fst (get_coils _ scripted_transport "C" (start C_replies)))).
  vm_compute. reflexivity.
Defined.

Lemma DF_one_register_raises_struct_error_witness :
  let w := start [RegistersResponse [0x4049]] in
  let w1 := mkWorld [] (stdout w)
              (trace w ++ [(mkRequest HoldingRegister (0x7000 + 1) 2,
                            RegistersResponse [0x4049])]) in
  value_step _ scripted_transport "DF" 0x7000 1 1 w = (w1, Raised StructError) /\
  script_value_step _ scripted_transport "DF" 0x7000 1 1 w = (w1, Raised StructError) /\
  forall l : list Z,
    for_ _ (1 :: l) (value_step _ scripted_transport "DF" 0x7000) 1 w
      = (w1, Raised StructError) /\
    for_ _ (1 :: l) (script_value_step _ scripted_transport "DF" 0x7000) 1 w
      = (w1, Raised StructError).
Proof.
  apply (DF_one_register_raises_struct_error _ scripted_transport 0x7000 1 1 0x4049
           (start [RegistersResponse [0x4049]]) []).
  - lia.
  - reflexivity.
Defined.

(** The DF query whose first read returns one register ends in struct.error
    with nothing printed, in the functions and in the script. *)
Lemma DF_query_on_one_register_raises :
  get_registers _ scripted_transport "DF" (start [RegistersResponse [0x4049]])
    = (mkWorld [] [] [(mkRequest HoldingRegister 0x7001 2, RegistersResponse [0x4049])],
       Raised StructError)
  /\ script _ scripted_transport "DF" (start [RegistersResponse [0x4049]])
    = (mkWorld [] [] [(mkRequest HoldingRegister 0x7001 2, RegistersResponse [0x4049])],
       Raised StructError).
Proof. split; vm_compute; reflexivity. Qed.

Lemma u32_from_two_registers_big_endian_witness :
  let w := start [RegistersResponse [0x0001; 0x0000]] in
  value_step _ scripted_transport "DD" 0x4000 1 1 w
    = (mkWorld [] ["DD1 : 65536"]
               [(mkRequest HoldingRegister 0x4001 2, RegistersResponse [0x0001; 0x0000])],
       Ok 2) /\
  0 <= 65536 < 2 ^ 32 /\
  Z.shiftr 65536 16 = 0x0001 /\
  Z.land 65536 (Z.ones 16) = 0x0000.
Proof.
  exact (u32_from_two_registers_big_endian _ scripted_transport "DD" 0x4000 1 1 2
           0x0001 0x0000 (start [RegistersResponse [0x0001; 0x0000]]) []
           (or_introl eq_refl) eq_refl
           (conj (Z.le_0_1) eq_refl) (conj (Z.le_refl 0) eq_refl) eq_refl).
Defined.

Lemma DF_decodes_pi_witness :
  exists (a : list Z) (fn : spec_float) (v : Q),
    registers_bytes [0x4049; 0x0fdb] = Some a /\
    unpack_f a = Some fn /\
    Q_of_float fn = Some v /\
    (Qabs (v - (314159 # 100000)) < (1 # 10000))%Q /\
    value_step _ scripted_transport "DF" 0x7000 1 1
               (start [RegistersResponse [0x4049; 0x0fdb]])
      = (mkWorld [] ["DF" ++ str_int 1 ++ " : " ++ fmt_4f fn]
                 [(mkRequest HoldingRegister (0x7000 + 1) 2,
                   RegistersResponse [0x4049; 0x0fdb])],
         Ok (1 + 1)) /\
    fmt_4f fn = "3.1416".
Proof.
  exact (DF_decodes_pi _ scripted_transport 0x7000 1 1
           (start [RegistersResponse [0x4049; 0x0fdb]]) [] eq_refl).
Defined.

Lemma unknown_symbol_is_silently_ignored_witness :
  script _ scripted_transport "ZZ" (start no_replies) = (start no_replies, Ok tt) /\
  forall g : option string,
    main _ scripted_transport always_connected (Some "ZZ") g (start no_replies)
    = (mkWorld (fst (always_connected (client (start no_replies)))) (stdout (start no_replies))
               (trace (start no_replies)),
       if snd (always_connected (client (start no_replies))) then Ok tt else Raised NameError).
Proof.
  apply (unknown_symbol_is_silently_ignored _ scripted_transport always_connected "ZZ"
           (start no_replies)).
  - apply not_In_of_mem. reflexivity.
  - apply not_In_of_mem. reflexivity.
Defined.

(** Against C5 as stated: the query of "ZZ" does not fail; the script and
    [main] both end normally, without a read and without a line. *)
Lemma unknown_symbol_query_ends_normally :
  script _ scripted_transport "ZZ" (start no_replies) = (start no_replies, Ok tt)
  /\ main _ scripted_transport always_connected (Some "ZZ") None (start no_replies)
     = (start no_replies, Ok tt).
Proof. split; reflexivity. Qed.

(** Against C9 as stated: on X1, with sixteen bits set, the function prints
    the line of bit 0 and then the fifteen lines of the script. *)
Lemma X1_function_prints_one_line_more :
  stdout (fst (get_coils _ scripted_transport "X1" (start X1_replies)))
    = "X100 : True" :: stdout (fst (script _ scripted_transport "X1" (start X1_replies)))
  /\ List.length (stdout (fst (script _ scripted_transport "X1" (start X1_replies)))) = 15%nat.
Proof. split; vm_compute; reflexivity. Qed.

(** The two float formats on the DF value 0x40490fdb. *)
Example DF_line_in_both_copies :
  stdout (fst (value_step _ scripted_transport "DF" 0x7000 1 1
                 (start [RegistersResponse [0x4049; 0x0fdb]]))) = ["DF1 : 3.1416"]
  /\ stdout (fst (script_value_step _ scripted_transport "DF" 0x7000 1 1
                    (start [RegistersResponse [0x4049; 0x0fdb]]))) = ["DF1 : 3.141593"].
Proof. split; vm_compute; reflexivity. Qed.

(** ** Further properties *)

Section MoreFacts.

Variable T : Type.
Variable transport : T -> Request -> T * Response.
Variable connect : T -> T * bool.

(** *** get_coils outside the C branch *)

(** X1. A query of a coil type other than C makes one read of [count] bits
    at the start address, of discrete inputs when the symbol starts with X
    and of coils otherwise.  When the answer carries bits, bit [b] is
    printed under the label [b], from label 0 on, two digits wide for X and
    Y symbols; the query ends normally when at least [count] bits came, and
    in IndexError, after the lines of the bits that did come, when fewer. *)
Theorem coil_query_on_bits
    (q : string) (s lo cnt : Z) (c0 : ascii) (w : World T) (c1 : T) (bs : list bool) :
  lookup q coil_start_addrs = Some s ->
  lookup q type_ranges = Some (lo, cnt) ->
  q <> "C" ->
  String.get 0 q = Some c0 ->
  0 <= cnt ->
  transport (client w) (mkRequest (coil_class c0) s cnt) = (c1, BitsResponse bs) ->
  get_coils T transport q w
  = (mkWorld c1 (stdout w ++ bit_lines q c0 0 (firstn (Z.to_nat cnt) bs))
             (trace w ++ [(mkRequest (coil_class c0) s cnt, BitsResponse bs)]),
     if cnt <=? len bs then Ok tt else Raised IndexError).
Proof.
  intros Hs Hr Hc Hc0 Hcnt Ht. apply String.eqb_neq in Hc.
  rewrite (get_coils_unfold T transport q s lo cnt c0 w Hs Hr Hc Hc0).
  unfold bind, call. unfold coil_class in Ht. rewrite Ht.
  rewrite (coil_loop_run T q c0 bs _ _ Hc0). cbn [client stdout trace].
  assert (Er : range1 cnt = map Z.of_nat (seq 0 (Z.to_nat cnt))).
  { rewrite <- range1_of_nat. now rewrite Z2Nat.id. }
  rewrite Er.
  pose proof (coil_lines_bits q c0 [] bs (Z.to_nat cnt)) as E.
  cbn [app List.length Nat.add] in E. change (len []) with 0 in E.
  erewrite map_ext in E; [rewrite E|reflexivity].
  cbn [fst snd]. unfold coil_class. f_equal.
  unfold len. destruct (Nat.leb_spec (Z.to_nat cnt) (List.length bs));
    destruct (Z.leb_spec cnt (Z.of_nat (List.length bs))); try reflexivity; lia.
Qed.

(** X2. When the answer to that read carries no bits, nothing is printed:
    a raised ModbusException passes through, and an exception response or a
    response with registers ends the query in AttributeError at the first
    bit; the one read has been made all the same. *)
Theorem coil_query_without_bits
    (q : string) (s lo cnt : Z) (c0 : ascii) (w : World T) (c1 : T) (rsp : Response) :
  lookup q coil_start_addrs = Some s ->
  lookup q type_ranges = Some (lo, cnt) ->
  q <> "C" ->
  String.get 0 q = Some c0 ->
  0 < cnt ->
  transport (client w) (mkRequest (coil_class c0) s cnt) = (c1, rsp) ->
  (forall bs, rsp <> BitsResponse bs) ->
  get_coils T transport q w
  = (mkWorld c1 (stdout w) (trace w ++ [(mkRequest (coil_class c0) s cnt, rsp)]),
     match rsp with
     | Raises => Raised ModbusException
     | _ => Raised AttributeError
     end).
Proof.
  intros Hs Hr Hc Hc0 Hcnt Ht Hrsp. apply String.eqb_neq in Hc.
  rewrite (get_coils_unfold T transport q s lo cnt c0 w Hs Hr Hc Hc0).
  unfold bind, call. unfold coil_class in Ht. rewrite Ht.
  unfold range1. rewrite (range3_cons 0 cnt 1) by lia.
  destruct rsp as [bs|regs| |].
  - exfalso. now apply (Hrsp bs).
  - rewrite (coil_loop_no_bits T q c0 _ _ _ _ Hc0) by discriminate. reflexivity.
  - rewrite (coil_loop_no_bits T q c0 _ _ _ _ Hc0) by discriminate. reflexivity.
  - reflexivity.
Qed.

(** *** Symbols and tables *)

Lemma lookup_None {A : Type} (k : string) (d : list (string * A)) :
  ~ In k (keys d) -> lookup k d = None.
Proof.
  induction d as [|[k' v] d IH]; intros H; cbn [lookup]; [reflexivity|].
  destruct (String.eqb_spec k k') as [->|Hne].
  - exfalso. apply H. now left.
  - apply IH. intros Hin. apply H. now right.
Qed.

(** X3. Each function serves its own table only: [get_coils] on a symbol
    outside [coil_start_addrs] and [get_registers] on a symbol outside
    [reg_start_addrs] raise KeyError before any read or line; and no symbol
    is in both tables. *)
Theorem query_outside_own_table_raises_KeyError (q : string) (w : World T) :
  (~ In q coil_keys -> get_coils T transport q w = (w, Raised KeyError)) /\
  (~ In q reg_keys -> get_registers T transport q w = (w, Raised KeyError)) /\
  ~ (In q coil_keys /\ In q reg_keys).
Proof.
  split; [|split].
  - intros H. unfold get_coils, getitem. now rewrite (lookup_None q coil_start_addrs H).
  - intros H. unfold get_registers, getitem. now rewrite (lookup_None q reg_start_addrs H).
  - intros [Hc Hr]. apply mem_true_iff in Hr. cbn in Hc.
    repeat (destruct Hc as [<-|Hc]; [discriminate Hr|]). exact Hc.
Qed.

(** *** The reads of get_registers *)

(** How the decoding of one response can end. *)
Lemma decoded_result (fmt : spec_float -> string) (q : string) (n : Z) (regs : list Z) :
  snd (decoded fmt q n regs) = Ok tt \/
  snd (decoded fmt q n regs) = Raised OverflowError \/
  (snd (decoded fmt q n regs) = Raised StructError /\ q = "DF").
Proof.
  unfold decoded. destruct (truthy regs); [|now left].
  destruct (q =? "DF")%string eqn:Edf.
  - apply String.eqb_eq in Edf. subst q.
    cbn [mem existsb String.eqb Ascii.eqb Bool.eqb orb fst snd].
    destruct (registers_bytes regs) as [a|]; [|auto].
    destruct (unpack_f a); auto.
  - destruct (mem q ["DD"; "CTD"; "XD"; "YD"]); [|now left].
    destruct (registers_bytes regs); auto.
Qed.

(** The per-value loop: its reads are an initial part of the range, all of
    it when it completes, and these are the ways it can end. *)
Lemma value_loop_shape (q : string) (s size : Z) (l : list Z) (n : Z) (w : World T) :
  lookup q reg_sizes = Some size ->
  exists tr : list (Request * Response),
    trace (fst (for_ T l (value_step T transport q s) n w)) = (trace w ++ tr)%list /\
    (exists k, map fst tr
               = firstn k (map (fun b => mkRequest (value_class q) (s + b) size) l)) /\
    (forall n', snd (for_ T l (value_step T transport q s) n w) = Ok n' ->
     map fst tr = map (fun b => mkRequest (value_class q) (s + b) size) l) /\
    ((exists n', snd (for_ T l (value_step T transport q s) n w) = Ok n') \/
     snd (for_ T l (value_step T transport q s) n w) = Raised ModbusException \/
     snd (for_ T l (value_step T transport q s) n w) = Raised AttributeError \/
     snd (for_ T l (value_step T transport q s) n w) = Raised OverflowError \/
     (snd (for_ T l (value_step T transport q s) n w) = Raised StructError /\ q = "DF")).
Proof.
  intros Hsize. revert n w. induction l as [|b l IH]; intros n w;
    remember (for_ T _ (value_step T transport q s) n w) as R eqn:ER; cbn [for_] in ER.
  - subst R. exists []. cbn. rewrite app_nil_r. repeat split; eauto. now exists 0%nat.
  - unfold bind in ER.
    destruct (transport (client w) (mkRequest (value_class q) (s + b) size)) as [c1 rsp] eqn:Et.
    rewrite (value_step_run T transport q s b n size w c1 rsp Hsize Et) in ER. cbn zeta in ER.
    destruct rsp as [bl|regs| |];
      try (subst R; eexists [_]; cbn; repeat split;
           [now exists 1%nat | discriminate | auto 6]).
    destruct (decoded_result fmt_4f q n regs) as [Hd|[Hd|[Hd Hq]]];
      rewrite Hd in ER; cbn [next] in ER; subst R.
    + destruct (IH (n + 1)
                   (mkWorld c1 (stdout w ++ fst (decoded fmt_4f q n regs))
                            (trace w ++ [(mkRequest (value_class q) (s + b) size, RegistersResponse regs)])))
        as (tr & Htr & Hk & Hok & Hres).
      exists ((mkRequest (value_class q) (s + b) size, RegistersResponse regs) :: tr).
      split; [rewrite Htr; cbn [trace]; now rewrite <- app_assoc|].
      split; [cbn [map fst]; now apply firstn_prefix_cons|].
      split; [intros n' H; cbn [map fst]; f_equal; now apply (Hok n') | exact Hres].
    + eexists [_]. cbn. repeat split; [now exists 1%nat | discriminate | auto 6].
    + eexists [_]. cbn. repeat split; [now exists 1%nat | discriminate | auto 8].
Qed.

Lemma register_plan_values (q : string) (s lo hi size : Z) :
  lookup q reg_start_addrs = Some s ->
  lookup q type_ranges = Some (lo, hi) ->
  lookup q reg_sizes = Some size ->
  mem q ["DS"; "TD"; "SD"; "DH"; "TXT"] = false ->
  register_plan q
  = map (fun b => mkRequest (value_class q) (s + b) size) (range3 lo (hi + 1) size).
Proof. intros Hs Hr Hsize Hm. unfold register_plan. now rewrite Hs, Hr, Hsize, Hm. Qed.

(** A query of a symbol of the register table: its reads against the plan,
    and how it can end. *)
Lemma get_registers_shape (q : string) (w : World T) :
  In q reg_keys ->
  exists tr : list (Request * Response),
    trace (fst (get_registers T transport q w)) = (trace w ++ tr)%list /\
    (exists k, map fst tr = firstn k (register_plan q)) /\
    (snd (get_registers T transport q w) = Ok tt -> map fst tr = register_plan q) /\
    (snd (get_registers T transport q w) = Ok tt \/
     snd (get_registers T transport q w) = Raised ModbusException \/
     snd (get_registers T transport q w) = Raised AttributeError \/
     (snd (get_registers T transport q w) = Raised OverflowError /\
      mem q ["DS"; "TD"; "SD"; "DH"; "TXT"] = false) \/
     (snd (get_registers T transport q w) = Raised StructError /\ q = "DF")).
Proof.
  intros Hq. cbn in Hq.
  destruct Hq as [<-|[<-|[<-|[<-|[<-|[<-|[<-|[<-|[<-|[<-|[]]]]]]]]]]].
  all: first
    [ erewrite get_registers_block by reflexivity;
      erewrite register_plan_block by reflexivity;
      match goal with
      | |- context [block_loop T transport ?f ?q ?s ?c ?bs ?cur ?n ?w0] =>
          destruct (block_loop_shape T transport f q s c bs cur n w0 ltac:(lia) ltac:(lia))
            as (tr & Htr & Hk & Hok & [Hres|[Hres|Hres]])
      end;
      exists tr; repeat split; auto
    | erewrite get_registers_values by (reflexivity || discriminate);
      erewrite register_plan_values by reflexivity;
      match goal with
      | |- context [bind T (for_ T ?l (value_step T transport ?q ?s) ?n) _ ?w0] =>
          destruct (value_loop_shape q s 2 l n w0 eq_refl)
            as (tr & Htr & Hk & Hok & Hres);
          unfold bind, ret;
          destruct (for_ T l (value_step T transport q s) n w0) as [w1 [n1|e|]];
          cbn [fst snd] in *;
          exists tr;
          (split; [exact Htr | split; [exact Hk | split;
            [ first [ intros _; now apply (Hok n1) | intros H; discriminate H ]
            | destruct Hres as [[n' Hres]|[Hres|[Hres|[Hres|[Hres Hdf]]]]];
              try discriminate Hres; inversion Hres; subst; auto 7 ]]])
      end ].
Qed.

(** X4. Whatever the client answers, the reads [get_registers] makes are an
    initial part of the plan the tables fix for the symbol (one block of 100
    per offset 0, 100, ... up to the range maximum for DS, TD, SD, DH and
    TXT; one read of [size] registers per element of
    [range(min, max + 1, size)] for the others), and the whole plan when the
    query ends normally: no answer changes which address is read next. *)
Theorem register_reads_follow_plan (q : string) (w : World T) :
  exists tr : list (Request * Response),
    trace (fst (get_registers T transport q w)) = (trace w ++ tr)%list /\
    (exists k, map fst tr = firstn k (register_plan q)) /\
    (snd (get_registers T transport q w) = Ok tt -> map fst tr = register_plan q).
Proof.
  destruct (mem q reg_keys) eqn:Hq.
  - apply mem_true_iff in Hq.
    destruct (get_registers_shape q w Hq) as (tr & Htr & Hk & Hok & _).
    exists tr. auto.
  - assert (Hn : ~ In q reg_keys).
    { intros H. apply mem_true_iff in H. congruence. }
    unfold get_registers, getitem. rewrite (lookup_None q reg_start_addrs Hn).
    exists []. cbn. rewrite app_nil_r. repeat split; [now exists 0%nat | discriminate].
Qed.

(** X5. A query of a symbol of the register table ends normally or in one
    of four exceptions: ModbusException raised by the client,
    AttributeError on a response without registers, OverflowError on a
    register outside two bytes (never for the block types), struct.error
    (for DF only).  It never ends in KeyError, IndexError, ValueError or
    NameError, and never for want of fuel. *)
Theorem register_query_endings (q : string) (w : World T) :
  In q reg_keys ->
  snd (get_registers T transport q w) = Ok tt \/
  snd (get_registers T transport q w) = Raised ModbusException \/
  snd (get_registers T transport q w) = Raised AttributeError \/
  (snd (get_registers T transport q w) = Raised OverflowError /\
   mem q ["DS"; "TD"; "SD"; "DH"; "TXT"] = false) \/
  (snd (get_registers T transport q w) = Raised StructError /\ q = "DF").
Proof.
  intros Hq. destruct (get_registers_shape q w Hq) as (tr & _ & _ & _ & H). exact H.
Qed.

Lemma concat_firstn_exact {A : Type} (bs : Z) (ls : list (list A)) (j : nat) :
  (forall l, In l ls -> len l = bs) -> (j <= List.length ls)%nat ->
  len (List.concat (firstn j ls)) = bs * Z.of_nat j.
Proof.
  revert j. induction ls as [|l ls IH]; intros j H Hj.
  - cbn in Hj. replace j with 0%nat by lia. unfold len. cbn. lia.
  - destruct j as [|j]; cbn [firstn List.concat].
    + unfold len. cbn. lia.
    + rewrite len_app. cbn [List.length] in Hj.
      rewrite (IH j (fun l' Hl => H l' (or_intror Hl))) by lia.
      rewrite (H l (or_introl eq_refl)). lia.
Qed.

(** X6. When every block of a completed query of DS, TD, SD, DH or TXT came
    back with as many registers as requested, each register is printed
    under the instance stored at the address it was read from: the register
    at position [p] of the [j]-th response is line [100 * j + p] of the
    output and carries the label [min + (address - start address)]. *)
Theorem block_labels_match_addresses_when_blocks_full
    (q : string) (s lo hi : Z) (w w' : World T) :
  In q ["DS"; "TD"; "SD"; "DH"; "TXT"] ->
  lookup q reg_start_addrs = Some s ->
  lookup q type_ranges = Some (lo, hi) ->
  get_registers T transport q w = (w', Ok tt) ->
  exists tr : list (Request * Response),
    trace w' = (trace w ++ tr)%list /\
    ((forall i rq' rsp', nth_error tr i = Some (rq', rsp') ->
                         len (returned rsp') = count rq') ->
     forall (j : nat) (rq : Request) (regs : list Z) (p : nat) (br : Z),
       nth_error tr j = Some (rq, RegistersResponse regs) ->
       nth_error regs p = Some br ->
       nth_error (stdout w') (List.length (stdout w) + (100 * j + p))
       = Some (block_line q (spec_instance_at s lo (address rq + Z.of_nat p)) br)).
Proof.
  intros Hq Hs Hr H. apply mem_true_iff in Hq.
  destruct (get_registers_block_Ok T transport q s lo hi w w' Hs Hr Hq H)
    as (replies & Hlen & Htr & Hout).
  set (reqs := map (fun a => mkRequest HoldingRegister (s + a) 100) (range3 0 (hi + 1) 100)) in *.
  exists (combine reqs (map RegistersResponse replies)). split; [exact Htr|].
  intros Hfull j rq regs p br Hj Hp.
  assert (Hpos : forall i rq' rsp',
             nth_error (combine reqs (map RegistersResponse replies)) i = Some (rq', rsp') ->
             exists r, nth_error replies i = Some r /\ rsp' = RegistersResponse r /\
                       rq' = mkRequest HoldingRegister (s + (0 + Z.of_nat i * 100)) 100).
  { intros i rq' rsp' Hi. rewrite nth_error_combine_eq in Hi.
    destruct (nth_error reqs i) as [a|] eqn:Ea; [|discriminate].
    destruct (nth_error (map RegistersResponse replies) i) as [b|] eqn:Eb; [|discriminate].
    inversion Hi; subst a b; clear Hi.
    unfold reqs in Ea. rewrite nth_error_map in Ea. rewrite nth_error_map in Eb.
    destruct (nth_error (range3 0 (hi + 1) 100) i) as [a|] eqn:Er; [|discriminate].
    destruct (nth_error replies i) as [r|]; [|discriminate].
    cbn in Ea, Eb. inversion Ea; inversion Eb; subst.
    apply range3_nth in Er; [|lia]. subst a. exists r. auto. }
  assert (Hall : forall l, In l replies -> len l = 100).
  { intros l Hl. apply In_nth_error in Hl. destruct Hl as [k Hk].
    assert (Hk' : nth_error (combine reqs (map RegistersResponse replies)) k
                  = Some (mkRequest HoldingRegister (s + (0 + Z.of_nat k * 100)) 100,
                          RegistersResponse l)).
    { rewrite nth_error_combine_eq. unfold reqs. rewrite !nth_error_map, Hk.
      destruct (nth_error (range3 0 (hi + 1) 100) k) as [a|] eqn:Er.
      - apply range3_nth in Er; [|lia]. subst a. reflexivity.
      - exfalso. apply nth_error_None in Er. rewrite <- Hlen in Er.
        apply nth_error_None in Er. congruence. }
    apply Hfull in Hk'. exact Hk'. }
  destruct (Hpos j rq _ Hj) as (r & Hrj & Er & Erq). inversion Er; subst r; clear Er.
  assert (Hjl : (j <= List.length replies)%nat).
  { apply Nat.lt_le_incl. apply nth_error_Some. rewrite Hrj. discriminate. }
  pose proof (concat_firstn_exact 100 replies j Hall Hjl) as Hex.
  rewrite Hout, nth_error_app2 by lia.
  replace (List.length (stdout w) + (100 * j + p) - List.length (stdout w))%nat
    with (List.length (List.concat (firstn j replies)) + p)%nat
    by (unfold len in Hex; lia).
  rewrite (block_lines_nth q lo _ _ br (concat_nth replies j p regs br Hrj Hp)).
  do 2 f_equal. subst rq. unfold spec_instance_at. cbn [address].
  unfold len in Hex. lia.
Qed.

(** *** Decoding registers *)

Lemma bytes_fold (v acc : Z) (a : list Z) :
  is_register v ->
  fold_left (fun acc b => Z.lor (Z.shiftl acc 8) b) ([v / 256; v mod 256] ++ a) acc
  = fold_left (fun acc b => Z.lor (Z.shiftl acc 8) b) a (acc * 65536 + v).
Proof.
  intros Hv. unfold is_register in Hv. cbn [app fold_left].
  pose proof (Z.mod_pos_bound v 256 ltac:(lia)).
  assert (0 <= v / 256 < 256) by (split; [apply Z.div_pos | apply Z.div_lt_upper_bound]; lia).
  rewrite !lor_shiftl_add by lia.
  pose proof (Z.div_mod v 256 ltac:(lia)).
  f_equal. lia.
Qed.

Lemma registers_bytes_fold (regs : list Z) :
  Forall is_register regs ->
  exists a, registers_bytes regs = Some a /\
            List.length a = (2 * List.length regs)%nat /\
            forall acc,
              fold_left (fun acc b => Z.lor (Z.shiftl acc 8) b) a acc
              = fold_left (fun acc r => acc * 65536 + r) regs acc.
Proof.
  induction 1 as [|v regs Hv _ IH].
  - exists []. repeat split.
  - destruct IH as (a & Ha & Hl & Hf). cbn [registers_bytes].
    rewrite (to_bytes2_Some v Hv), Ha. eexists. split; [reflexivity|]. split.
    + cbn [app List.length]. lia.
    + intros acc. rewrite (bytes_fold v acc a Hv). cbn [fold_left]. apply Hf.
Qed.

Lemma registers_bytes_Some_inv (regs a : list Z) :
  registers_bytes regs = Some a -> Forall is_register regs.
Proof.
  revert a. induction regs as [|v regs IH]; intros a H; [constructor|].
  cbn [registers_bytes] in H. unfold to_bytes2 in H.
  destruct ((0 <=? v) && (v <? 65536)) eqn:E; [|discriminate].
  destruct (registers_bytes regs) as [a'|]; [|discriminate].
  apply andb_true_iff in E. destruct E as [E1 E2].
  constructor; [unfold is_register; lia | now apply (IH a')].
Qed.

Lemma registers_value_bounds (regs : list Z) (acc : Z) (k : nat) :
  Forall is_register regs -> 0 <= acc < 65536 ^ Z.of_nat k ->
  0 <= fold_left (fun acc r => acc * 65536 + r) regs acc
    < 65536 ^ Z.of_nat (k + List.length regs).
Proof.
  intros H. revert acc k. induction H as [|v regs Hv _ IH]; intros acc k Hacc.
  - cbn. now rewrite Nat.add_0_r.
  - cbn [fold_left List.length]. unfold is_register in Hv.
    replace (k + S (List.length regs))%nat with (S k + List.length regs)%nat by lia.
    apply IH. rewrite Nat2Z.inj_succ, Z.pow_succ_r by lia. lia.
Qed.

(** X7. For DD, CTD, XD and YD, a response of any number of registers is
    decoded, not only a pair: the registers are printed as one number, most
    significant register first, below 65536 to the number of registers.  A
    response of a single register prints that register as the value. *)
Theorem u32_decodes_any_number_of_registers
    (q : string) (s b n size : Z) (regs : list Z) (w : World T) (c1 : T) :
  In q ["DD"; "CTD"; "XD"; "YD"] ->
  lookup q reg_sizes = Some size ->
  regs <> [] ->
  Forall is_register regs ->
  transport (client w) (mkRequest (value_class q) (s + b) size)
    = (c1, RegistersResponse regs) ->
  value_step T transport q s b n w
    = (mkWorld c1 (stdout w ++ [q ++ str_int n ++ " : " ++ str_int (registers_value regs)])
               (trace w ++ [(mkRequest (value_class q) (s + b) size, RegistersResponse regs)]),
       Ok (n + 1)) /\
  0 <= registers_value regs < 65536 ^ Z.of_nat (List.length regs) /\
  (forall r, regs = [r] -> registers_value regs = r).
Proof.
  intros Hq Hsize Hne Hregs Ht.
  destruct (registers_bytes_fold regs Hregs) as (a & Ha & _ & Hf).
  assert (Hd : decoded fmt_4f q n regs
               = ([q ++ str_int n ++ " : " ++ str_int (registers_value regs)], Ok tt)).
  { unfold decoded. destruct regs as [|r0 regs]; [congruence|]. cbn [truthy].
    rewrite Ha. unfold int_from_bytes, registers_value. rewrite Hf. cbn [In] in Hq.
    destruct Hq as [<-|[<-|[<-|[<-|[]]]]]; reflexivity. }
  split; [|split].
  - rewrite (value_step_run T transport q s b n size w c1 _ Hsize Ht). cbn zeta.
    rewrite Hd. reflexivity.
  - apply (registers_value_bounds regs 0 0 Hregs). cbn. lia.
  - intros r ->. reflexivity.
Qed.

(** X8. For DF, with registers of sixteen bits, the decoding goes by the
    number of registers in the response: none, and the read is skipped
    without a line; two, and one line is printed, the float whose bits are
    [hi * 65536 + lo]; any other number, and struct.error is raised with
    nothing printed. *)
Theorem DF_decoding_by_response_length
    (s b n : Z) (regs : list Z) (w : World T) (c1 : T) :
  Forall is_register regs ->
  transport (client w) (mkRequest HoldingRegister (s + b) 2) = (c1, RegistersResponse regs) ->
  value_step T transport "DF" s b n w
  = (mkWorld c1
       (stdout w ++
        match regs with
        | [hi; lo] => ["DF" ++ str_int n ++ " : " ++ fmt_4f (float_of_bits (hi * 65536 + lo))]
        | _ => []
        end)
       (trace w ++ [(mkRequest HoldingRegister (s + b) 2, RegistersResponse regs)]),
     match regs with
     | [] | [_; _] => Ok (n + 1)
     | _ => Raised StructError
     end).
Proof.
  intros Hregs Ht.
  rewrite (value_step_run T transport "DF" s b n 2 w c1 _ eq_refl Ht). cbn zeta.
  destruct (registers_bytes_fold regs Hregs) as (a & Ha & Hl & Hf).
  unfold decoded. cbn [mem existsb String.eqb Ascii.eqb Bool.eqb orb fst snd].
  rewrite Ha.
  destruct regs as [|r0 [|r1 [|r2 regs]]]; cbn [truthy].
  - reflexivity.
  - destruct a as [|a0 [|a1 [|a2 a]]]; cbn in Hl; try lia. reflexivity.
  - destruct a as [|a0 [|a1 [|a2 [|a3 [|a4 a]]]]]; cbn in Hl; try lia.
    cbn [unpack_f fst snd next]. unfold int_from_bytes. rewrite Hf.
    cbn [fold_left]. reflexivity.
  - destruct a as [|a0 [|a1 [|a2 [|a3 [|a4 a]]]]]; cbn in Hl; try lia. reflexivity.
Qed.

(** X9. The list comprehension of the functions and the nested append loops
    of the script split registers into bytes alike and touch neither the
    client nor the output: two bytes per register when every register fits
    sixteen bits, OverflowError as soon as one does not. *)
Theorem bytes_of_registers_in_both_copies (bl : list Z) (w : World T) :
  script_bytes_of_registers T bl w = bytes_of_registers T bl w /\
  ((exists a, bytes_of_registers T bl w = (w, Ok a) /\
              List.length a = (2 * List.length bl)%nat /\
              int_from_bytes a = registers_value bl /\
              Forall is_register bl) \/
   (bytes_of_registers T bl w = (w, Raised OverflowError) /\ ~ Forall is_register bl)).
Proof.
  split.
  - now rewrite script_bytes_of_registers_run, bytes_of_registers_run.
  - rewrite bytes_of_registers_run.
    destruct (registers_bytes bl) as [a|] eqn:Ea.
    + left. pose proof (registers_bytes_Some_inv bl a Ea) as Hf.
      destruct (registers_bytes_fold bl Hf) as (a' & Ha' & Hl & Hv).
      rewrite Ea in Ha'. inversion Ha'; subst a'. exists a.
      repeat split; auto. apply Hv.
    + right. split; [reflexivity|]. intros Hf.
      destruct (registers_bytes_fold bl Hf) as (a' & Ha' & _). congruence.
Qed.

(** *** main *)

Lemma tables_disjoint (q : string) : mem q coil_keys = true -> mem q reg_keys = false.
Proof.
  intros H. apply mem_true_iff in H. cbn in H.
  repeat (destruct H as [<-|H]; [reflexivity|]). contradiction.
Qed.

(** X11. Called while the module global [query_type] is unbound, as it is
    when the file is run, [main] ends in NameError for every symbol of the
    tables: after connecting it makes no read and prints no line, whatever
    the connection gave. *)
Theorem main_with_unbound_global_raises_NameError (q : string) (w : World T) :
  In q coil_keys \/ In q reg_keys ->
  main T transport connect (Some q) None w
  = (mkWorld (fst (connect (client w))) (stdout w) (trace w), Raised NameError).
Proof.
  intros Hq. unfold main, try_except, client_connect. unfold bind at 1.
  destruct (connect (client w)) as [c' ok]. cbn [fst].
  destruct ok; cbn [negb]; [|reflexivity].
  rewrite bind_ret. cbv beta.
  destruct Hq as [Hq|Hq]; apply mem_true_iff in Hq.
  - rewrite Hq. reflexivity.
  - destruct (mem q coil_keys); [reflexivity|]. rewrite Hq. reflexivity.
Qed.

(** X12. With the global bound to [g] and the connection made, [main] uses
    its argument only to pick the function: for an argument of the coil
    table it runs [get_coils] on [g], for one of the register table
    [get_registers] on [g], and turns any exception of that run into
    NameError. *)
Theorem main_queries_the_global (q g : string) (w : World T) (c' : T) :
  connect (client w) = (c', true) ->
  let w1 := mkWorld c' (stdout w) (trace w) in
  (In q coil_keys ->
   main T transport connect (Some q) (Some g) w
   = (fst (get_coils T transport g w1), as_name_error (snd (get_coils T transport g w1)))) /\
  (In q reg_keys ->
   main T transport connect (Some q) (Some g) w
   = (fst (get_registers T transport g w1),
      as_name_error (snd (get_registers T transport g w1)))).
Proof.
  intros Hc w1. subst w1.
  split; intros Hq; apply mem_true_iff in Hq;
    unfold main, try_except, client_connect; unfold bind at 1; rewrite Hc;
    cbn [negb]; rewrite bind_ret; cbv beta.
  - rewrite Hq, (tables_disjoint q Hq). cbn [when of_option].
    unfold bind at 1. rewrite bind_ret. cbv beta.
    destruct (get_coils T transport g _) as [w2 [[]|e|]]; reflexivity.
  - assert (Hn : mem q coil_keys = false).
    { destruct (mem q coil_keys) eqn:E; [|reflexivity].
      rewrite (tables_disjoint q E) in Hq. discriminate. }
    rewrite Hn, Hq. cbn [when of_option]. rewrite bind_ret. cbv beta.
    rewrite bind_ret. cbv beta.
    destruct (get_registers T transport g _) as [w2 [[]|e|]]; reflexivity.
Qed.

(** *** The command line of the script *)

Lemma listing_loop (d l : list (string * string)) (w : World T) :
  (forall kv, In kv l -> lookup (fst kv) d = Some (snd kv)) ->
  for_each T (map fst l)
    (fun e => bind T (getitem T d e) (fun name => print T (e ++ ": " ++ name))) w
  = (mkWorld (client w) (stdout w ++ map (fun kv => fst kv ++ ": " ++ snd kv) l) (trace w),
     Ok tt).
Proof.
  unfold for_each. revert w. induction l as [|kv l IH]; intros w H.
  - cbn. unfold ret. now rewrite app_nil_r, world_eta.
  - cbn [map for_]. unfold bind at 1. unfold bind at 1. unfold getitem.
    rewrite (H kv (or_introl eq_refl)). cbn [of_option]. unfold ret at 1, print at 1.
    rewrite IH by (intros kv' Hin; apply H; now right).
    cbn [client stdout trace]. now rewrite <- app_assoc.
Qed.

Lemma type_names_lookup (kv : string * string) :
  In kv type_names -> lookup (fst kv) type_names = Some (snd kv).
Proof.
  intros H. vm_compute in H.
  repeat (destruct H as [<-|H]; [reflexivity|]). contradiction.
Qed.

Lemma prelude_usage (argv : list string) (w : World T) :
  len argv < 2 \/ 3 < len argv ->
  script_prelude T argv w
  = (mkWorld (client w) (stdout w ++ ["Check Readme for Usage"]) (trace w), Ok Exited).
Proof.
  intros H. unfold script_prelude.
  assert (E : (len argv <? 2) || (3 <? len argv) = true).
  { apply orb_true_iff. destruct H; [left; now apply Z.ltb_lt | right; now apply Z.ltb_lt]. }
  rewrite E. reflexivity.
Qed.

Lemma prelude_two (a0 a1 : string) (w : World T) :
  script_prelude T [a0; a1] w
  = if (a1 =? "list")%string then
      bind T (for_each T (keys type_names) (fun e =>
                bind T (getitem T type_names e) (fun name => print T (e ++ ": " ++ name))))
             (fun _ => ret T Exited) w
    else (w, Raised NameError).
Proof.
  unfold script_prelude.
  change ((len [a0; a1] <? 2) || (3 <? len [a0; a1])) with false. cbv iota.
  change (getindex T [a0; a1] 1) with (ret T a1). rewrite bind_ret. cbv beta.
  change (2 <? len [a0; a1]) with false. cbv iota. rewrite bind_ret. cbv beta.
  destruct (a1 =? "list")%string.
  - rewrite bind_ret. reflexivity.
  - reflexivity.
Qed.

Lemma prelude_three (a0 a1 a2 : string) (w : World T) :
  script_prelude T [a0; a1; a2] w
  = if (a1 =? "list")%string || (a2 =? "list")%string then
      bind T (for_each T (keys type_names) (fun e =>
                bind T (getitem T type_names e) (fun name => print T (e ++ ": " ++ name))))
             (fun _ => ret T Exited) w
    else (w, Ok (Running a2)).
Proof.
  unfold script_prelude.
  change ((len [a0; a1; a2] <? 2) || (3 <? len [a0; a1; a2])) with false. cbv iota.
  change (getindex T [a0; a1; a2] 1) with (ret T a1). rewrite bind_ret. cbv beta.
  change (2 <? len [a0; a1; a2]) with true. cbv iota.
  change (bind T (getindex T [a0; a1; a2] 2) (fun a => ret T (Some a)))
    with (ret T (Some a2)).
  rewrite bind_ret. cbv beta.
  destruct (a1 =? "list")%string; cbn [orb].
  - rewrite bind_ret. reflexivity.
  - destruct (a2 =? "list")%string eqn:E2;
      unfold bind, ret; cbn [of_option]; unfold ret; rewrite E2; reflexivity.
Qed.

(** X13. With one or two arguments of which the first is [list], or with
    two of which the second is, the script prints the name table, one
    [symbol: name] line per key, and leaves without a read.  The table has
    eighteen keys: X1 and X2, written twice in the literal, are listed once
    each, as output points. *)
Theorem list_command_prints_the_name_table (argv : list string) (w : World T) :
  List.length argv = 2%nat \/ List.length argv = 3%nat ->
  nth_error argv 1 = Some "list" \/ nth_error argv 2 = Some "list" ->
  module_script T transport argv w
    = (mkWorld (client w) (stdout w ++ listing) (trace w), Ok tt) /\
  listing = [ "X0: M0 Input Point"; "X1: M1 Output Point"; "X2: M2 Output Point";
              "Y0: M0 Output Point"; "C: Control Relay"; "T: Timer"; "CT: Counter";
              "SC: System Control Relay"; "DS: Data Register int"; "TD: Timer Register";
              "SD: System Data Register"; "DD: Data Register int2"; "CTD: Counter Register";
              "DF: Data Register float"; "DH: Data Register hex"; "XD: Input Register";
              "YD: Output Register"; "TXT: Text Data" ].
Proof.
  intros Hlen Hlist. split; [|vm_compute; reflexivity].
  assert (Hloop : for_each T (keys type_names)
            (fun e => bind T (getitem T type_names e) (fun name => print T (e ++ ": " ++ name))) w
          = (mkWorld (client w) (stdout w ++ listing) (trace w), Ok tt)).
  { apply (listing_loop type_names type_names w). apply type_names_lookup. }
  destruct argv as [|a0 [|a1 [|a2 [|a3 argv]]]]; cbn in Hlen; try (destruct Hlen; lia).
  - destruct Hlist as [Hl|Hl]; [|discriminate Hl]. cbn in Hl. inversion Hl; subst a1.
    unfold module_script. unfold bind at 1. rewrite prelude_two.
    change ("list" =? "list")%string with true. cbv iota.
    unfold bind at 1. rewrite Hloop. reflexivity.
  - assert (E : (a1 =? "list")%string || (a2 =? "list")%string = true).
    { apply orb_true_iff.
      destruct Hlist as [Hl|Hl]; cbn in Hl; inversion Hl; subst;
        [left | right]; apply String.eqb_refl. }
    unfold module_script. unfold bind at 1. rewrite prelude_three, E.
    unfold bind at 1. rewrite Hloop. reflexivity.
Qed.

(** X14. The other command lines of the script.  With no argument or more
    than two it prints the usage line and leaves.  With a single argument
    that is not [list] it ends in NameError on the unbound [query_type],
    before any read or line.  With two arguments, neither of them [list],
    it runs the [with] block on the second. *)
Theorem script_command_line (w : World T) :
  (forall argv, len argv < 2 \/ 3 < len argv ->
     module_script T transport argv w
     = (mkWorld (client w) (stdout w ++ ["Check Readme for Usage"]) (trace w), Ok tt)) /\
  (forall a0 a1, a1 <> "list" ->
     module_script T transport [a0; a1] w = (w, Raised NameError)) /\
  (forall a0 a1 a2, a1 <> "list" -> a2 <> "list" ->
     module_script T transport [a0; a1; a2] w = script T transport a2 w).
Proof.
  split; [|split].
  - intros argv H. unfold module_script. unfold bind at 1.
    now rewrite (prelude_usage argv w H).
  - intros a0 a1 H. apply String.eqb_neq in H.
    unfold module_script. unfold bind at 1. now rewrite prelude_two, H.
  - intros a0 a1 a2 H1 H2. apply String.eqb_neq in H1. apply String.eqb_neq in H2.
    unfold module_script. unfold bind at 1. now rewrite prelude_three, H1, H2.
Qed.

(** *** How get_coils can end *)

Lemma coil_lines_result (q : string) (c0 : ascii) (bs : list bool) (l : list Z) :
  snd (coil_lines q c0 bs l) = Ok tt \/ snd (coil_lines q c0 bs l) = Raised IndexError.
Proof.
  induction l as [|b l IH]; cbn [coil_lines]; [now left|].
  destruct (index bs b); [exact IH | now right].
Qed.

Lemma get_coils_C_shape (w : World T) :
  exists tr : list (Request * Response),
    trace (fst (get_coils T transport "C" w)) = (trace w ++ tr)%list /\
    tr <> [] /\
    (exists k, map fst tr = firstn k (coil_plan "C")) /\
    (snd (get_coils T transport "C" w) = Ok tt \/
     snd (get_coils T transport "C" w) = Raised ModbusException \/
     snd (get_coils T transport "C" w) = Raised AttributeError).
Proof.
  remember (get_coils T transport "C" w) as R eqn:ER.
  unfold get_coils, getitem in ER.
  cbn [lookup coil_start_addrs type_ranges String.eqb Ascii.eqb Bool.eqb of_option] in ER.
  repeat (rewrite bind_ret in ER; cbv beta in ER).
  cbn [snd String.eqb Ascii.eqb Bool.eqb] in ER.
  unfold bind at 1 in ER. unfold read_coils at 1, call at 1 in ER.
  change (coil_plan "C") with [mkRequest Coil 16384 1000; mkRequest Coil 1000 1000].
  destruct (transport (client w) (mkRequest Coil 16384 1000)) as [c1 rsp1].
  destruct rsp1 as [b1|regs1| |];
    try (subst R; eexists [_]; cbn; repeat split;
         [discriminate | now exists 1%nat | auto]).
  unfold bind at 1 in ER. cbn [bits_of] in ER. unfold ret at 1 in ER.
  unfold bind at 1 in ER. unfold read_coils at 1, call at 1 in ER. cbn [client] in ER.
  destruct (transport c1 (mkRequest Coil 1000 1000)) as [c2 rsp2].
  destruct rsp2 as [b2|regs2| |];
    try (subst R; eexists [_; _]; cbn; rewrite <- app_assoc; repeat split;
         [discriminate | now exists 2%nat | auto]).
  unfold bind at 1 in ER. cbn [bits_of] in ER. unfold ret at 1 in ER.
  unfold for_each, len in ER. rewrite range1_of_nat in ER.
  pose proof (relay_loop_run T "C" [] (b1 ++ b2)%list) as E.
  cbn [List.length app Nat.add] in E. rewrite E in ER. subst R.
  eexists [_; _]. cbn. rewrite <- app_assoc. repeat split;
    [discriminate | now exists 2%nat | auto].
Qed.

Lemma get_coils_other_shape (q : string) (s lo cnt : Z) (c0 : ascii) (w : World T) :
  lookup q coil_start_addrs = Some s ->
  lookup q type_ranges = Some (lo, cnt) ->
  (q =? "C")%string = false ->
  String.get 0 q = Some c0 ->
  0 < cnt ->
  exists rsp : Response,
    trace (fst (get_coils T transport q w))
      = (trace w ++ [(mkRequest (coil_class c0) s cnt, rsp)])%list /\
    (snd (get_coils T transport q w) = Ok tt \/
     snd (get_coils T transport q w) = Raised ModbusException \/
     snd (get_coils T transport q w) = Raised AttributeError \/
     snd (get_coils T transport q w) = Raised IndexError).
Proof.
  intros Hs Hr Hc Hc0 Hcnt.
  rewrite (get_coils_unfold T transport q s lo cnt c0 w Hs Hr Hc Hc0).
  unfold bind, call. fold (coil_class c0).
  destruct (transport (client w) (mkRequest (coil_class c0) s cnt)) as [c1 rsp].
  exists rsp. destruct rsp as [bs|regs| |].
  - rewrite (coil_loop_run T q c0 bs _ _ Hc0). cbn [fst snd trace]. split; [reflexivity|].
    destruct (coil_lines_result q c0 bs (range1 cnt)) as [->| ->]; auto.
  - unfold range1. rewrite (range3_cons 0 cnt 1) by lia.
    rewrite (coil_loop_no_bits T q c0 _ _ _ _ Hc0) by discriminate. cbn. auto.
  - unfold range1. rewrite (range3_cons 0 cnt 1) by lia.
    rewrite (coil_loop_no_bits T q c0 _ _ _ _ Hc0) by discriminate. cbn. auto.
  - cbn. auto.
Qed.

(** X15. A query of a symbol of the coil table always makes at least one
    read, and its reads are an initial part of the plan the tables fix: for
    C the two blocks, the second only after the first was answered with
    bits; for the others the single read, whatever comes back.  It ends
    normally, in ModbusException, in AttributeError, or, but never for C,
    in IndexError; never in KeyError. *)
Theorem coil_query_reads_and_endings (q : string) (w : World T) :
  In q coil_keys ->
  exists tr : list (Request * Response),
    trace (fst (get_coils T transport q w)) = (trace w ++ tr)%list /\
    tr <> [] /\
    (exists k, map fst tr = firstn k (coil_plan q)) /\
    (q <> "C" -> map fst tr = coil_plan q) /\
    (snd (get_coils T transport q w) = Ok tt \/
     snd (get_coils T transport q w) = Raised ModbusException \/
     snd (get_coils T transport q w) = Raised AttributeError \/
     (snd (get_coils T transport q w) = Raised IndexError /\ q <> "C")).
Proof.
  intros Hq. cbn in Hq.
  repeat (destruct Hq as [<-|Hq]); [..|contradiction].
  all: try match goal with
       | |- context [get_coils _ _ "C" ?w0] =>
           destruct (get_coils_C_shape w0) as (tr & Htr & Hne & Hk & Hres);
           exists tr; split; [exact Htr|]; split; [exact Hne|]; split; [exact Hk|];
           split; [congruence|]; destruct Hres as [H|[H|H]]; auto
       end.
  all: match goal with
       | |- context [get_coils _ _ ?q ?w0] =>
           let c := eval vm_compute in (String.get 0 q) in
           let s := eval vm_compute in (lookup q coil_start_addrs) in
           let r := eval vm_compute in (lookup q type_ranges) in
           match c with
           | Some ?c0 =>
               match s with
               | Some ?s0 =>
                   match r with
                   | Some (?lo, ?cnt) =>
                       destruct (get_coils_other_shape q s0 lo cnt c0 w0
                                   eq_refl eq_refl eq_refl eq_refl ltac:(lia))
                         as (rsp & Htr & Hres);
                       exists [(mkRequest (coil_class c0) s0 cnt, rsp)];
                       split; [exact Htr|]; split; [discriminate|];
                       split; [now exists 1%nat|]; split; [reflexivity|];
                       destruct Hres as [H|[H|[H|H]]]; auto;
                       right; right; right; split; [exact H | discriminate]
                   end
               end
           end
       end.
Qed.

End MoreFacts.

(** ** The further properties at concrete clients *)

Lemma coil_query_on_bits_witness :
  get_coils _ scripted_transport "X1" (start [BitsResponse [true; false; true]])
  = (mkWorld [] (stdout (start [BitsResponse [true; false; true]]) ++
                 bit_lines "X1" "X"%char 0 (firstn (Z.to_nat 16) [true; false; true]))
             (trace (start [BitsResponse [true; false; true]]) ++
              [(mkRequest (coil_class "X"%char) 0x0020 16, BitsResponse [true; false; true])]),
     if 16 <=? len [true; false; true] then Ok tt else Raised IndexError).
Proof.
  apply (coil_query_on_bits _ scripted_transport "X1" 0x0020 1 16 "X"%char
           (start [BitsResponse [true; false; true]]) [] [true; false; true]).
  - reflexivity.
  - reflexivity.
  - discriminate.
  - reflexivity.
  - lia.
  - reflexivity.
Defined.

(** Three bits for X1: three lines, from label 00 on, then IndexError. *)
Example X1_short_answer :
  get_coils _ scripted_transport "X1" (start [BitsResponse [true; false; true]])
  = (mkWorld [] ["X100 : True"; "X101 : False"; "X102 : True"]
             [(mkRequest DiscreteInput 0x0020 16, BitsResponse [true; false; true])],
     Raised IndexError).
Proof. vm_compute. reflexivity. Qed.

Lemma coil_query_without_bits_witness :
  get_coils _ scripted_transport "T" (start [ExceptionResponse])
  = (mkWorld [] (stdout (start [ExceptionResponse]))
             (trace (start [ExceptionResponse]) ++
              [(mkRequest (coil_class "T"%char) 0xB000 500, ExceptionResponse)]),
     Raised AttributeError).
Proof.
  apply (coil_query_without_bits _ scripted_transport "T" 0xB000 1 500 "T"%char
           (start [ExceptionResponse]) [] ExceptionResponse).
  - reflexivity.
  - reflexivity.
  - discriminate.
  - reflexivity.
  - lia.
  - reflexivity.
  - discriminate.
Defined.

Lemma register_query_endings_witness :
  snd (get_registers _ scripted_transport "DF" (start [RegistersResponse [0x4049]])) = Ok tt \/
  snd (get_registers _ scripted_transport "DF" (start [RegistersResponse [0x4049]]))
    = Raised ModbusException \/
  snd (get_registers _ scripted_transport "DF" (start [RegistersResponse [0x4049]]))
    = Raised AttributeError \/
  (snd (get_registers _ scripted_transport "DF" (start [RegistersResponse [0x4049]]))
     = Raised OverflowError /\
   mem "DF" ["DS"; "TD"; "SD"; "DH"; "TXT"] = false) \/
  (snd (get_registers _ scripted_transport "DF" (start [RegistersResponse [0x4049]]))
     = Raised StructError /\ "DF" = "DF").
Proof.
  apply (register_query_endings _ scripted_transport "DF"
           (start [RegistersResponse [0x4049]])).
  do 3 right. left. reflexivity.
Defined.

Lemma block_labels_match_addresses_when_blocks_full_witness :
  exists tr : list (Request * Response),
    trace (fst (get_registers _ sample_plc "TD" (start tt))) = (trace (start tt) ++ tr)%list /\
    ((forall i rq' rsp', nth_error tr i = Some (rq', rsp') ->
                         len (returned rsp') = count rq') ->
     forall (j : nat) (rq : Request) (regs : list Z) (p : nat) (br : Z),
       nth_error tr j = Some (rq, RegistersResponse regs) ->
       nth_error regs p = Some br ->
       nth_error (stdout (fst (get_registers _ sample_plc "TD" (start tt))))
                 (List.length (stdout (start tt)) + (100 * j + p))
       = Some (block_line "TD" (spec_instance_at 0xB000 1 (address rq + Z.of_nat p)) br)).
Proof.
  apply (block_labels_match_addresses_when_blocks_full _ sample_plc "TD" 0xB000 1 500
           (start tt) (fst (get_registers _ sample_plc "TD" (start tt)))).
  - right. left. reflexivity.
  - reflexivity.
  - reflexivity.
  - vm_compute. reflexivity.
Defined.

(** Against the sample PLC the TD registers come out under the instance of
    their address: TD1 from 0xB000, TD101 from 0xB064. *)
Example TD_labels_against_a_full_PLC :
  let out := stdout (fst (get_registers _ sample_plc "TD" (start tt))) in
  nth_error out 0 = Some "TD1 : 45056" /\ nth_error out 100 = Some "TD101 : 45156".
Proof. cbv zeta. split; vm_compute; reflexivity. Qed.

Lemma u32_decodes_any_number_of_registers_witness :
  value_step _ scripted_transport "DD" 0x4000 1 1 (start [RegistersResponse [0x4049]])
    = (mkWorld [] (stdout (start [RegistersResponse [0x4049]]) ++
                   ["DD" ++ str_int 1 ++ " : " ++ str_int (registers_value [0x4049])])
               (trace (start [RegistersResponse [0x4049]]) ++
                [(mkRequest (value_class "DD") (0x4000 + 1) 2, RegistersResponse [0x4049])]),
       Ok (1 + 1)) /\
  0 <= registers_value [0x4049] < 65536 ^ Z.of_nat (List.length [0x4049]) /\
  (forall r, [0x4049] = [r] -> registers_value [0x4049] = r).
Proof.
  apply (u32_decodes_any_number_of_registers _ scripted_transport "DD" 0x4000 1 1 2
           [0x4049] (start [RegistersResponse [0x4049]]) []).
  - left. reflexivity.
  - reflexivity.
  - discriminate.
  - constructor; [unfold is_register; lia | constructor].
  - reflexivity.
Defined.

(** A DD read answered with one register: the register is the value. *)
Example DD_single_register_is_printed :
  stdout (fst (value_step _ scripted_transport "DD" 0x4000 1 1
                 (start [RegistersResponse [0x4049]]))) = ["DD1 : 16457"].
Proof. vm_compute. reflexivity. Qed.

Lemma DF_decoding_by_response_length_witness :
  value_step _ scripted_transport "DF" 0x7000 1 1 (start [RegistersResponse [1; 2; 3]])
  = (mkWorld []
       (stdout (start [RegistersResponse [1; 2; 3]]) ++ [])
       (trace (start [RegistersResponse [1; 2; 3]]) ++
        [(mkRequest HoldingRegister (0x7000 + 1) 2, RegistersResponse [1; 2; 3])]),
     Raised StructError).
Proof.
  apply (DF_decoding_by_response_length _ scripted_transport 0x7000 1 1 [1; 2; 3]
           (start [RegistersResponse [1; 2; 3]]) []).
  - repeat constructor; unfold is_register; lia.
  - reflexivity.
Defined.

Lemma main_with_unbound_global_raises_NameError_witness :
  main _ scripted_transport always_connected (Some "DF") None
       (start [RegistersResponse [0x4049; 0x0fdb]])
  = (mkWorld (fst (always_connected (client (start [RegistersResponse [0x4049; 0x0fdb]]))))
             (stdout (start [RegistersResponse [0x4049; 0x0fdb]]))
             (trace (start [RegistersResponse [0x4049; 0x0fdb]])),
     Raised NameError).
Proof.
  apply (main_with_unbound_global_raises_NameError _ scripted_transport always_connected
           "DF" (start [RegistersResponse [0x4049; 0x0fdb]])).
  right. do 3 right. left. reflexivity.
Defined.

Lemma main_queries_the_global_witness :
  let w := start [BitsResponse [true]] in
  let w1 := mkWorld [BitsResponse [true]] (stdout w) (trace w) in
  (In "X0" coil_keys ->
   main _ scripted_transport always_connected (Some "X0") (Some "DS") w
   = (fst (get_coils _ scripted_transport "DS" w1),
      as_name_error (snd (get_coils _ scripted_transport "DS" w1)))) /\
  (In "X0" reg_keys ->
   main _ scripted_transport always_connected (Some "X0") (Some "DS") w
   = (fst (get_registers _ scripted_transport "DS" w1),
      as_name_error (snd (get_registers _ scripted_transport "DS" w1)))).
Proof.
  exact (main_queries_the_global _ scripted_transport always_connected "X0" "DS"
           (start [BitsResponse [true]]) [BitsResponse [true]] eq_refl).
Defined.

(** Asked for X0 with the global naming DS, [main] makes no read: the coil
    function is run on DS, which its table does not hold. *)
Example main_asked_X0_with_global_DS :
  main _ scripted_transport always_connected (Some "X0") (Some "DS")
       (start [BitsResponse [true]])
  = (start [BitsResponse [true]], Raised NameError).
Proof. vm_compute. reflexivity. Qed.

Lemma list_command_prints_the_name_table_witness :
  module_script _ scripted_transport ["click_mb_scanner.py"; "list"] (start no_replies)
    = (mkWorld (client (start no_replies)) (stdout (start no_replies) ++ listing)
               (trace (start no_replies)), Ok tt) /\
  listing = [ "X0: M0 Input Point"; "X1: M1 Output Point"; "X2: M2 Output Point";
              "Y0: M0 Output Point"; "C: Control Relay"; "T: Timer"; "CT: Counter";
              "SC: System Control Relay"; "DS: Data Register int"; "TD: Timer Register";
              "SD: System Data Register"; "DD: Data Register int2"; "CTD: Counter Register";
              "DF: Data Register float"; "DH: Data Register hex"; "XD: Input Register";
              "YD: Output Register"; "TXT: Text Data" ].
Proof.
  apply (list_command_prints_the_name_table _ scripted_transport
           ["click_mb_scanner.py"; "list"] (start no_replies)).
  - left. reflexivity.
  - left. reflexivity.
Defined.

Lemma coil_query_reads_and_endings_witness :
  exists tr : list (Request * Response),
    trace (fst (get_coils _ scripted_transport "C" (start C_replies)))
      = (trace (start C_replies) ++ tr)%list /\
    tr <> [] /\
    (exists k, map fst tr = firstn k (coil_plan "C")) /\
    ("C" <> "C" -> map fst tr = coil_plan "C") /\
    (snd (get_coils _ scripted_transport "C" (start C_replies)) = Ok tt \/
     snd (get_coils _ scripted_transport "C" (start C_replies)) = Raised ModbusException \/
     snd (get_coils _ scripted_transport "C" (start C_replies)) = Raised AttributeError \/
     (snd (get_coils _ scripted_transport "C" (start C_replies)) = Raised IndexError /\
      "C" <> "C")).
Proof.
  apply (coil_query_reads_and_endings _ scripted_transport "C" (start C_replies)).
  cbn. do 18 right. left. reflexivity.
Defined.
